(** * ea-imagery-api: grid-reference decoding, boundary tiling, harvest
      post-processing and the tile endpoint

    A shallow embedding of

      - [imagery_api/utils/update_data/geo.py]   (module [Geo]),
      - [imagery_api/utils/update_data/main.py]  (module [UpdateData]),
      - [imagery_api/main.py]                    (module [Api]),

    with the properties stated about them.

    Conventions.  A Python [str] is the list of its Unicode code points
    ([N]).  Python [int] is [Z].  Coordinates that the program holds in
    binary floating point are exact rationals ([Q]) here: the model is
    the program under exact arithmetic; rounding is not modelled.  In
    [Geo] every float is an integer below [2^53] (lemma
    [Geo.to_osgb36_range]), where float arithmetic is exact, so [Z] is
    used there. *)

From Stdlib Require Import ZArith NArith QArith Qround Lia ZifyBool Lqa List Ascii String.
From stdpp Require Import base option list gmap.

#[global] Set Default Proof Using "Type".

(** Exceptions and results shared by the three modules. *)
Inductive result (E A : Type) : Type :=
  | Ok (a : A)
  | Raise (e : E).
Arguments Ok {E A} a.
Arguments Raise {E A} e.

(** Code points of a literal. *)
Definition cps (s : string) : list N :=
  List.map N_of_ascii (list_ascii_of_string s).

(* ================================================================== *)
Module Geo.

Local Open Scope Z_scope.

(** The values [to_osgb36] may be handed: it is called on whatever the
    [tile_id] column holds. *)
Inductive pyobj : Type :=
  | PyStr (s : list N)
  | PyBytes (b : list N)
  | PyInt (n : Z)
  | PyNone
  | PyList (items : list (list N)).

(** [class BNGError(Exception)].  The two raise sites differ by their
    message only; the constructor records which one fired:
    [InvalidFormat] is [BNGError(bad_input_message)], [UnknownRegion] is
    [BNGError('Invalid 100 km grid square code: ...')]. *)
Inductive BNGError : Type :=
  | InvalidFormat
  | UnknownRegion (region : list N).

(** ** [_init_regions_and_offsets] *)

Definition regions_src : list (list string) :=
  [ ["HL"; "HM"; "HN"; "HO"; "HP"; "JL"; "JM"];
    ["HQ"; "HR"; "HS"; "HT"; "HU"; "JQ"; "JR"];
    ["HV"; "HW"; "HX"; "HY"; "HZ"; "JV"; "JW"];
    ["NA"; "NB"; "NC"; "ND"; "NE"; "OA"; "OB"];
    ["NF"; "NG"; "NH"; "NJ"; "NK"; "OF"; "OG"];
    ["NL"; "NM"; "NN"; "NO"; "NP"; "OL"; "OM"];
    ["NQ"; "NR"; "NS"; "NT"; "NU"; "OQ"; "OR"];
    ["NV"; "NW"; "NX"; "NY"; "NZ"; "OV"; "OW"];
    ["SA"; "SB"; "SC"; "SD"; "SE"; "TA"; "TB"];
    ["SF"; "SG"; "SH"; "SJ"; "SK"; "TF"; "TG"];
    ["SL"; "SM"; "SN"; "SO"; "SP"; "TL"; "TM"];
    ["SQ"; "SR"; "SS"; "ST"; "SU"; "TQ"; "TR"];
    ["SV"; "SW"; "SX"; "SY"; "SZ"; "TV"; "TW"] ]%string.

(** [zip( *rows )]: the k-th tuple collects the k-th entry of every row;
    as many tuples as the shortest row has entries. *)
Definition zip_star {A} (rows : list (list A)) : list (list A) :=
  match rows with
  | [] => []
  | r :: rs =>
      let n := foldr (fun r' m => Nat.min (length r') m) (length r) rs in
      List.map (fun k => omap (fun row => row !! k) rows) (seq 0 n)
  end.

(** [regions = list(zip( *regions[::-1] ))] *)
Definition _regions : list (list (list N)) :=
  zip_star (reverse (List.map (List.map cps) regions_src)).

(** The double loop filling [offset_map]; [1e5 * i] is the integer
    [100000 * i]. *)
Definition fill_offsets (regions : list (list (list N)))
  : gmap (list N) (Z * Z) :=
  foldl
    (fun m i =>
       foldl
         (fun m j =>
            match regions !! i ≫= (fun row => row !! j) with
            | Some region =>
                <[ region := (100000 * Z.of_nat i, 100000 * Z.of_nat j) ]> m
            | None => m
            end)
         m (seq 0 (length (default [] (regions !! 0%nat)))))
    ∅ (seq 0 (length regions)).

Definition _offset_map : gmap (list N) (Z * Z) := fill_offsets _regions.

(** ** [to_osgb36] *)

Section Decoder.

(** Python's Unicode tables outside ASCII: the full upper-case mapping
    of a code point (one code point may map to several), and the value
    of a code point of category Nd (what [\d] matches and [int] reads). *)
Variable unicode_upper : N -> list N.
Variable unicode_decimal : N -> option Z.

Definition ascii_upper (c : N) : N :=
  if ((97 <=? c) && (c <=? 122))%N then (c - 32)%N else c.

Definition upper_cp (c : N) : list N :=
  if (c <? 128)%N then [ascii_upper c] else unicode_upper c.

(** [str.upper()] *)
Definition str_upper (s : list N) : list N := concat (List.map upper_cp s).

(** [[A-Z]] *)
Definition is_AZ (c : N) : bool := ((65 <=? c) && (c <=? 90))%N.

(** [\d] on a [str] pattern *)
Definition is_digit (c : N) : bool :=
  if (c <? 128)%N then ((48 <=? c) && (c <=? 57))%N
  else bool_decide (is_Some (unicode_decimal c)).

(** [$] without [re.MULTILINE]: at the end of the string, or just before
    a newline that ends the string. *)
Definition at_dollar (rest : list N) : bool :=
  match rest with
  | [] => true
  | [c] => (c =? 10)%N
  | _ => false
  end.

(** One alternative [\d{n}] followed by [$]. *)
Definition digits_then_end (n : nat) (rest : list N) : option (list N) :=
  let d := take n rest in
  if (length d =? n)%nat && forallb is_digit d && at_dollar (drop n rest)
  then Some d else None.

(** The alternation, tried from the left. *)
Fixpoint first_alternative (ns : list nat) (rest : list N)
  : option (list N) :=
  match ns with
  | [] => None
  | n :: ns' =>
      match digits_then_end n rest with
      | Some d => Some d
      | None => first_alternative ns' rest
      end
  end.

(** [re.match(r'^([A-Z]{2})(\d{4}|\d{6}|\d{8}|\d{10})$', gridref)] and
    [match.groups()]. *)
Definition re_match (gridref : list N) : option (list N * list N) :=
  match gridref with
  | a :: b :: rest =>
      if is_AZ a && is_AZ b then
        match first_alternative [4; 6; 8; 10]%nat rest with
        | Some coords => Some ([a; b], coords)
        | None => None
        end
      else None
  | _ => None
  end.

Definition digit_value (c : N) : Z :=
  if (c <? 128)%N then Z.of_N c - 48 else default 0 (unicode_decimal c).

(** [int(s)] on a non-empty run of decimal digits. *)
Definition py_int (ds : list N) : Z :=
  foldl (fun acc c => 10 * acc + digit_value c) 0 ds.

(** What the [try] block can raise and the handler catches. *)
Inductive caught : Type := TypeError | AttributeError.

(** [gridref = gridref.upper(); match = re.match(pattern, gridref)].
    Only [str] and [bytes] have [upper]; a [str] pattern on [bytes] is a
    [TypeError]. *)
Definition upper_and_match (gridref : pyobj)
  : result caught (option (list N * list N)) :=
  match gridref with
  | PyStr s => Ok (re_match (str_upper s))
  | PyBytes _ => Raise TypeError
  | PyInt _ | PyNone | PyList _ => Raise AttributeError
  end.

Definition to_osgb36 (gridref : pyobj) : result BNGError (Z * Z * Z) :=
  match upper_and_match gridref with
  | Raise _ => Raise InvalidFormat
  | Ok None => Raise InvalidFormat
  | Ok (Some (region, coords)) =>
      match _offset_map !! region with
      | None => Raise (UnknownRegion region)
      | Some (x_offset, y_offset) =>
          let half_figs := (length coords / 2)%nat in
          let easting := py_int (take half_figs coords) in
          let northing := py_int (drop half_figs coords) in
          let scale_factor := 10 ^ (5 - Z.of_nat half_figs) in
          let x := easting * scale_factor + x_offset in
          let y := northing * scale_factor + y_offset in
          let resolution := 10 ^ (6 - Z.of_nat half_figs) in
          Ok (x, y, resolution)
      end
  end.


(** ** Facts about the decoder *)

(** The references of the documented format, before case normalization:
    ASCII letters of either case and ASCII digits, read in base ten. *)
Definition ascii_letter (c : N) : bool :=
  is_AZ c || ((97 <=? c) && (c <=? 122))%N.

Definition ascii_digit (c : N) : bool := ((48 <=? c) && (c <=? 57))%N.

Definition decimal (ds : list N) : Z :=
  foldl (fun acc c => 10 * acc + (Z.of_N c - 48)) 0 ds.

Lemma upper_cp_letter c :
  ascii_letter c = true ->
  upper_cp c = [ascii_upper c] /\ is_AZ (ascii_upper c) = true.
Proof.
  unfold ascii_letter, upper_cp, ascii_upper, is_AZ. intros H.
  assert (Hlt : (c <? 128)%N = true) by (apply N.ltb_lt; lia).
  rewrite Hlt. split; [reflexivity|].
  destruct ((97 <=? c) && (c <=? 122))%N eqn:E; lia.
Qed.

Lemma upper_cp_digit c : ascii_digit c = true -> upper_cp c = [c].
Proof.
  unfold ascii_digit, upper_cp, ascii_upper. intros H.
  assert (Hlt : (c <? 128)%N = true) by (apply N.ltb_lt; lia).
  rewrite Hlt.
  destruct ((97 <=? c) && (c <=? 122))%N eqn:E; [lia | reflexivity].
Qed.

Lemma is_digit_ascii c : ascii_digit c = true -> is_digit c = true.
Proof.
  unfold ascii_digit, is_digit. intros H.
  assert (Hlt : (c <? 128)%N = true) by (apply N.ltb_lt; lia).
  now rewrite Hlt.
Qed.

Lemma str_upper_digits ds :
  Forall (fun c => ascii_digit c = true) ds -> str_upper ds = ds.
Proof.
  unfold str_upper. induction 1 as [|c ds Hc _ IH]; [reflexivity|].
  cbn [List.map concat]. now rewrite IH, (upper_cp_digit c Hc).
Qed.

Lemma forallb_is_digit ds :
  Forall (fun c => ascii_digit c = true) ds -> forallb is_digit ds = true.
Proof.
  induction 1 as [|c ds Hc _ IH]; [reflexivity|].
  cbn [forallb]. now rewrite IH, (is_digit_ascii c Hc).
Qed.

Lemma py_int_decimal ds :
  Forall (fun c => ascii_digit c = true) ds -> py_int ds = decimal ds.
Proof.
  unfold py_int, decimal. intros H. generalize 0.
  induction H as [|c ds Hc _ IH]; intros acc; [reflexivity|].
  cbn [foldl]. rewrite <- IH. f_equal. f_equal.
  unfold digit_value, ascii_digit in *.
  assert (Hlt : (c <? 128)%N = true) by (apply N.ltb_lt; lia).
  now rewrite Hlt.
Qed.

(** An alternative matches when the digits are exactly the rest. *)
Lemma digits_then_end_exact n ds :
  length ds = n -> Forall (fun c => ascii_digit c = true) ds ->
  digits_then_end n ds = Some ds.
Proof.
  intros Hn Hd. unfold digits_then_end.
  rewrite take_ge, drop_ge by lia.
  rewrite forallb_is_digit by assumption.
  rewrite (proj2 (Nat.eqb_eq _ _) Hn). reflexivity.
Qed.

(** An alternative fails when two or more characters follow its digits. *)
Lemma digits_then_end_long n rest :
  (n + 2 <= length rest)%nat -> digits_then_end n rest = None.
Proof.
  intros Hn. unfold digits_then_end.
  assert (Hd : (2 <= length (drop n rest))%nat) by (rewrite length_drop; lia).
  destruct (drop n rest) as [|c1 [|c2 tl]]; cbn [length] in Hd; try lia.
  cbn [at_dollar]. now rewrite andb_false_r.
Qed.

Lemma first_alternative_even ds h :
  length ds = (2 * h)%nat -> (2 <= h <= 5)%nat ->
  Forall (fun c => ascii_digit c = true) ds ->
  first_alternative [4; 6; 8; 10]%nat ds = Some ds.
Proof.
  intros Hlen Hh Hd.
  assert (Hcases : h = 2%nat \/ h = 3%nat \/ h = 4%nat \/ h = 5%nat) by lia.
  cbn [first_alternative].
  destruct Hcases as [-> | [-> | [-> | ->]]].
  - now rewrite digits_then_end_exact.
  - rewrite (digits_then_end_long 4) by lia.
    now rewrite digits_then_end_exact.
  - rewrite (digits_then_end_long 4), (digits_then_end_long 6) by lia.
    now rewrite digits_then_end_exact.
  - rewrite (digits_then_end_long 4), (digits_then_end_long 6),
      (digits_then_end_long 8) by lia.
    now rewrite digits_then_end_exact.
Qed.

(** C1.  For every reference made of two ASCII letters (either case)
    whose upper-cased pair is a key of the region-offset table, followed
    by [h] easting digits and [h] northing digits with [h] in 2..5,
    [to_osgb36] returns easting [= digits * 10^(5-h) + x_offset],
    northing [= digits * 10^(5-h) + y_offset] and resolution
    [10^(6-h)]; the result is the one of the upper-cased reference.
    [to_osgb36] is a function of its argument alone. *)
Theorem to_osgb36_formula (a b : N) (e n : list N) (h : nat) (xo yo : Z) :
  ascii_letter a = true -> ascii_letter b = true ->
  Forall (fun c => ascii_digit c = true) e ->
  Forall (fun c => ascii_digit c = true) n ->
  length e = h -> length n = h -> (2 <= h <= 5)%nat ->
  _offset_map !! [ascii_upper a; ascii_upper b] = Some (xo, yo) ->
  to_osgb36 (PyStr (a :: b :: e ++ n))
    = Ok (decimal e * 10 ^ (5 - Z.of_nat h) + xo,
          decimal n * 10 ^ (5 - Z.of_nat h) + yo,
          10 ^ (6 - Z.of_nat h))
  /\ to_osgb36 (PyStr (a :: b :: e ++ n))
    = to_osgb36 (PyStr (ascii_upper a :: ascii_upper b :: e ++ n)).
Proof.
  intros Ha Hb He Hn Hle Hln Hh Hoff.
  assert (Hd : Forall (fun c => ascii_digit c = true) (e ++ n))
    by (apply Forall_app; split; assumption).
  assert (Hlen : length (e ++ n) = (2 * h)%nat)
    by (rewrite length_app; lia).
  assert (Hhalf : (length (e ++ n) / 2)%nat = h)
    by (rewrite Hlen, Nat.mul_comm; apply Nat.div_mul; lia).
  assert (Hup : forall a' b',
             ascii_letter a' = true -> ascii_letter b' = true ->
             ascii_upper a' = ascii_upper a -> ascii_upper b' = ascii_upper b ->
             to_osgb36 (PyStr (a' :: b' :: e ++ n))
             = Ok (decimal e * 10 ^ (5 - Z.of_nat h) + xo,
                   decimal n * 10 ^ (5 - Z.of_nat h) + yo,
                   10 ^ (6 - Z.of_nat h))).
  { intros a' b' Ha' Hb' Ea Eb.
    destruct (upper_cp_letter a' Ha') as [Ua Za].
    destruct (upper_cp_letter b' Hb') as [Ub Zb].
    unfold to_osgb36, upper_and_match, str_upper.
    cbn [List.map concat]. fold (str_upper (e ++ n)).
    rewrite Ua, Ub, (str_upper_digits _ Hd).
    cbn [app re_match]. rewrite Za, Zb. cbn [andb].
    rewrite (first_alternative_even _ h) by assumption.
    rewrite Ea, Eb, Hoff. cbv zeta. rewrite Hhalf.
    rewrite take_app_length', drop_app_length' by (symmetry; assumption).
    now rewrite !py_int_decimal by assumption. }
  assert (Hidem : forall c, ascii_letter c = true ->
             ascii_letter (ascii_upper c) = true
             /\ ascii_upper (ascii_upper c) = ascii_upper c).
  { intros c Hc. unfold ascii_letter, ascii_upper, is_AZ in *.
    destruct ((97 <=? c) && (c <=? 122))%N eqn:E.
    - assert (E' : ((97 <=? c - 32) && (c - 32 <=? 122))%N = false) by lia.
      rewrite E'. split; [lia | reflexivity].
    - rewrite E. split; [assumption | reflexivity]. }
  split.
  - now apply Hup.
  - rewrite (Hup a b) by auto.
    symmetry. apply Hup; now apply Hidem.
Qed.

(** *** What the pattern accepts *)

Lemma digits_then_end_Some n rest d :
  digits_then_end n rest = Some d <->
  exists tail, rest = d ++ tail /\ length d = n
               /\ forallb is_digit d = true /\ at_dollar tail = true.
Proof.
  unfold digits_then_end. split.
  - destruct (_ && _ && _) eqn:E; [|discriminate].
    intros [= <-]. apply andb_prop in E as [E Hend].
    apply andb_prop in E as [Hlen Hdig]. apply Nat.eqb_eq in Hlen.
    exists (drop n rest). now rewrite take_drop.
  - intros (tail & -> & Hlen & Hdig & Hend).
    rewrite take_app_length', drop_app_length' by (symmetry; assumption).
    rewrite Hdig, Hend, (proj2 (Nat.eqb_eq _ _) Hlen). reflexivity.
Qed.

Lemma at_dollar_spec tail :
  at_dollar tail = true <-> tail = [] \/ tail = [10%N].
Proof.
  destruct tail as [|c [|c' tl]]; cbn [at_dollar]; split;
    try (intros [H|H]; discriminate); auto.
  - intros H. apply N.eqb_eq in H. subst. now right.
  - intros [H|[= ->]]; [discriminate | reflexivity].
  - discriminate.
Qed.

(** The match succeeds exactly on two upper-case letters, then 4, 6, 8
    or 10 digits, then nothing or one final newline. *)
Lemma re_match_Some g region coords :
  re_match g = Some (region, coords) <->
  exists a b tail,
    g = a :: b :: coords ++ tail /\ region = [a; b]
    /\ is_AZ a = true /\ is_AZ b = true
    /\ In (length coords) [4; 6; 8; 10]%nat
    /\ forallb is_digit coords = true
    /\ (tail = [] \/ tail = [10%N]).
Proof.
  split.
  - destruct g as [|a [|b rest]]; try discriminate. cbn [re_match].
    destruct (is_AZ a && is_AZ b) eqn:E; [|discriminate].
    apply andb_prop in E as [Ea Eb].
    destruct (first_alternative _ rest) as [d|] eqn:F; [|discriminate].
    intros [= <- <-]. exists a, b.
    cbn [first_alternative] in F.
    repeat match type of F with
           | match digits_then_end ?k rest with _ => _ end = _ =>
               destruct (digits_then_end k rest) as [d'|] eqn:D;
               [ injection F as ->;
                 apply digits_then_end_Some in D
                   as (tail & -> & Hlen & Hdig & Hend);
                 exists tail; rewrite Hlen; cbn [In];
                 rewrite <- at_dollar_spec; repeat split; auto 6
               | clear D ]
           end.
    discriminate.
  - intros (a & b & tail & -> & -> & Ea & Eb & Hin & Hdig & Hend).
    cbn [re_match]. rewrite Ea, Eb. cbn [andb].
    assert (Hex : digits_then_end (length coords) (coords ++ tail)
                  = Some coords).
    { apply digits_then_end_Some. exists tail.
      rewrite at_dollar_spec. repeat split; assumption. }
    assert (Hfirst : first_alternative [4; 6; 8; 10]%nat (coords ++ tail)
                     = Some coords);
      [|now rewrite Hfirst].
    cbn [first_alternative]. cbn [In] in Hin.
    destruct Hin as [H | [H | [H | [H | []]]]]; rewrite <- H in Hex.
    + now rewrite Hex.
    + rewrite (digits_then_end_long 4) by (rewrite length_app; lia).
      now rewrite Hex.
    + rewrite (digits_then_end_long 4), (digits_then_end_long 6)
        by (rewrite length_app; lia).
      now rewrite Hex.
    + rewrite (digits_then_end_long 4), (digits_then_end_long 6),
        (digits_then_end_long 8) by (rewrite length_app; lia).
      now rewrite Hex.
Qed.

(** *** The three outcomes *)

Lemma to_osgb36_not_str g :
  (forall s, g <> PyStr s) -> to_osgb36 g = Raise InvalidFormat.
Proof. destruct g; intros H; try reflexivity. now destruct (H s). Qed.

Lemma to_osgb36_invalid_format g :
  to_osgb36 g = Raise InvalidFormat <->
  forall s, g = PyStr s -> re_match (str_upper s) = None.
Proof.
  destruct g as [s| | | |]; unfold to_osgb36, upper_and_match;
    try (split; [intros _ s' Hs; discriminate Hs | reflexivity]).
  destruct (re_match (str_upper s)) as [[region coords]|] eqn:E.
  - split.
    + destruct (_offset_map !! region) as [[xo yo]|];
        intros H; discriminate H.
    + intros H. specialize (H s eq_refl). congruence.
  - split; [now intros _ s' [= <-] | reflexivity].
Qed.

Lemma to_osgb36_unknown_region g region :
  to_osgb36 g = Raise (UnknownRegion region) <->
  exists s coords, g = PyStr s
    /\ re_match (str_upper s) = Some (region, coords)
    /\ _offset_map !! region = None.
Proof.
  split.
  - destruct g as [s| | | |]; unfold to_osgb36, upper_and_match; try discriminate.
    destruct (re_match (str_upper s)) as [[r coords]|] eqn:M;
      [|discriminate].
    destruct (_offset_map !! r) as [[xo yo]|] eqn:E; [discriminate|].
    intros [= <-]. exists s, coords. auto.
  - intros (s & coords & -> & Hm & Hoff).
    unfold to_osgb36, upper_and_match. now rewrite Hm, Hoff.
Qed.

Lemma to_osgb36_succeeds g :
  (exists v, to_osgb36 g = Ok v) <->
  exists s region coords, g = PyStr s
    /\ re_match (str_upper s) = Some (region, coords)
    /\ is_Some (_offset_map !! region).
Proof.
  split.
  - intros [v Hv].
    destruct g as [s| | | |]; unfold to_osgb36, upper_and_match in Hv;
      try discriminate.
    destruct (re_match (str_upper s)) as [[r coords]|] eqn:M;
      [|discriminate].
    exists s, r, coords.
    destruct (_offset_map !! r) as [[xo yo]|]; [eauto | discriminate].
  - intros (s & r & coords & -> & Hm & [[xo yo] Hoff]).
    unfold to_osgb36, upper_and_match. rewrite Hm, Hoff. eauto.
Qed.

(** *** The documented format, on ASCII input

    Apart from the final newline, an ASCII string is decoded or refused
    as the documented format says. *)

Definition documented_format (s : list N) : Prop :=
  exists a b ds,
    s = a :: b :: ds
    /\ ascii_letter a = true /\ ascii_letter b = true
    /\ Forall (fun c => ascii_digit c = true) ds
    /\ In (length ds) [4; 6; 8; 10]%nat.

Lemma str_upper_ascii s :
  Forall (fun c => (c < 128)%N) s -> str_upper s = List.map ascii_upper s.
Proof.
  unfold str_upper. induction 1 as [|c s Hc _ IH]; [reflexivity|].
  cbn [List.map concat]. rewrite IH. unfold upper_cp.
  now rewrite (proj2 (N.ltb_lt _ _) Hc).
Qed.

Lemma ascii_upper_AZ c : is_AZ (ascii_upper c) = ascii_letter c.
Proof.
  unfold is_AZ, ascii_letter, ascii_upper, is_AZ.
  destruct ((97 <=? c) && (c <=? 122))%N eqn:E; lia.
Qed.

Lemma ascii_upper_digit c :
  (c < 128)%N -> is_digit (ascii_upper c) = ascii_digit c.
Proof.
  intros Hc. unfold is_digit, ascii_digit, ascii_upper.
  destruct ((97 <=? c) && (c <=? 122))%N eqn:E.
  - assert (H : (c - 32 <? 128)%N = true) by lia. rewrite H. lia.
  - now rewrite (proj2 (N.ltb_lt _ _) Hc).
Qed.

Lemma ascii_upper_newline c : ascii_upper c = 10%N <-> c = 10%N.
Proof.
  unfold ascii_upper.
  destruct ((97 <=? c) && (c <=? 122))%N eqn:E; lia.
Qed.

Lemma ascii_upper_of_digit c : ascii_digit c = true -> ascii_upper c = c.
Proof.
  unfold ascii_digit, ascii_upper. intros H.
  destruct ((97 <=? c) && (c <=? 122))%N eqn:E; [lia | reflexivity].
Qed.

Lemma to_osgb36_ascii_invalid_format s :
  Forall (fun c => (c < 128)%N) s ->
  to_osgb36 (PyStr s) = Raise InvalidFormat <->
  ~ (documented_format s
     \/ exists s', s = s' ++ [10%N] /\ documented_format s').
Proof.
  intros Hs. rewrite to_osgb36_invalid_format. split.
  - intros Hnone Hdoc. specialize (Hnone s eq_refl).
    assert (Hm : exists s' tail,
               s = s' ++ tail /\ documented_format s'
               /\ (tail = [] \/ tail = [10%N])).
    { destruct Hdoc as [H | (s' & -> & H)].
      - exists s, []. rewrite app_nil_r. auto.
      - exists s', [10%N]. auto. }
    destruct Hm as (s' & tail & -> & (a & b & ds & -> & Ha & Hb & Hd & Hl)
                    & Ht).
    assert (Hsome : re_match (str_upper ((a :: b :: ds) ++ tail))
                    = Some ([ascii_upper a; ascii_upper b], ds)).
    { apply re_match_Some. exists (ascii_upper a), (ascii_upper b), tail.
      rewrite str_upper_ascii by assumption.
      rewrite !ascii_upper_AZ, forallb_is_digit by assumption.
      repeat split; try assumption.
      cbn [app List.map]. do 2 f_equal. rewrite List.map_app. f_equal.
      - clear -Hd. induction Hd as [|c ds Hc _ IH]; [reflexivity|].
        cbn [List.map]. now rewrite IH, ascii_upper_of_digit.
      - destruct Ht as [-> | ->]; reflexivity. }
    congruence.
  - intros Hdoc s0 [= <-].
    destruct (re_match (str_upper s)) as [[region coords]|] eqn:M;
      [|reflexivity].
    exfalso. apply Hdoc. clear Hdoc.
    apply re_match_Some in M
      as (A & B & tail & E & _ & HA & HB & Hl & Hdig & Ht).
    rewrite str_upper_ascii in E by assumption.
    destruct s as [|a [|b rest]]; try discriminate E.
    cbn [List.map] in E. injection E as <- <- E.
    change (List.map ascii_upper rest) with (ascii_upper <$> rest) in E.
    apply fmap_app_inv in E as (ds & ts & Eds & Ets & ->).
    rewrite ascii_upper_AZ in HA, HB.
    inversion Hs as [|? ? _ Hs']; subst.
    inversion Hs' as [|? ? _ Hs'']; subst.
    apply Forall_app in Hs'' as [Hds Hts].
    assert (Hdoc : documented_format (a :: b :: ds)).
    { exists a, b, ds. repeat split; try assumption.
      - clear -Hds Hdig. induction Hds as [|c ds Hc _ IH];
          [constructor|].
        cbn [fmap list_fmap forallb] in Hdig.
        apply andb_prop in Hdig as [H1 H2].
        rewrite ascii_upper_digit in H1 by assumption.
        constructor; [assumption | now apply IH].
      - now rewrite length_fmap in Hl. }
    destruct Ht as [Ht | Ht].
    + apply fmap_nil_inv in Ht as ->. left. now rewrite app_nil_r.
    + destruct ts as [|c [|c' ts]]; try discriminate Ht.
      injection Ht as Ec. apply ascii_upper_newline in Ec as ->.
      right. exists (a :: b :: ds). auto.
Qed.

(** C3.  A reference followed by a newline is not two letters followed
    by exactly 4, 6, 8 or 10 digits, and is decoded all the same: the
    pattern ends in [$], which also matches before a final newline. *)
Theorem to_osgb36_accepts_trailing_newline :
  to_osgb36 (PyStr (cps "NT1234" ++ [10%N])) = Ok (312000, 634000, 10000)
  /\ to_osgb36 (PyStr (cps "NT1234")) = Ok (312000, 634000, 10000)
  /\ to_osgb36 (PyStr (cps "NT1234" ++ [32%N])) = Raise InvalidFormat.
Proof. repeat split; vm_compute; reflexivity. Qed.

(** C2 (resolution as the code computes it).  The four documented
    references decode to the documented coordinates; the resolution is
    [10^(6-h)]: 10 for the 10-figure reference, 1000 for the 6-figure
    ones. *)
Theorem to_osgb36_documented_examples :
  to_osgb36 (PyStr (cps "NT2755072950")) = Ok (327550, 672950, 10)
  /\ to_osgb36 (PyStr (cps "HU431392")) = Ok (443100, 1139200, 1000)
  /\ to_osgb36 (PyStr (cps "SJ637560")) = Ok (363700, 356000, 1000)
  /\ to_osgb36 (PyStr (cps "TV374354")) = Ok (537400, 35400, 1000).
Proof. repeat split; vm_compute; reflexivity. Qed.

End Decoder.

(** ** Closed instances *)

(** The tables of an ASCII-only alphabet, for examples on concrete
    input: no case mapping and no decimal digit outside ASCII. *)
Definition ascii_only_upper (c : N) : list N := [c].
Definition ascii_only_decimal (c : N) : option Z := None.

(** C1 at ["nt2755072950"]. *)
Lemma to_osgb36_formula_witness :
  to_osgb36 ascii_only_upper ascii_only_decimal
    (PyStr (cps "nt2755072950")) = Ok (327550, 672950, 10)
  /\ to_osgb36 ascii_only_upper ascii_only_decimal
       (PyStr (cps "nt2755072950"))
     = to_osgb36 ascii_only_upper ascii_only_decimal
         (PyStr (cps "NT2755072950")).
Proof.
  apply (to_osgb36_formula ascii_only_upper ascii_only_decimal
           110%N 116%N (cps "27550") (cps "72950") 5 300000 600000).
  - reflexivity.
  - reflexivity.
  - repeat constructor.
  - repeat constructor.
  - reflexivity.
  - reflexivity.
  - lia.
  - vm_compute. reflexivity.
Defined.

(** C2, as worded: the resolution returned for ["NT2755072950"] is not
    1. *)
Lemma to_osgb36_NT_resolution_is_not_1 :
  to_osgb36 ascii_only_upper ascii_only_decimal
    (PyStr (cps "NT2755072950")) <> Ok (327550, 672950, 1).
Proof. vm_compute. intros H. discriminate H. Qed.

(** ** The region-offset table *)

Lemma offset_map_size : size _offset_map = 91%nat.
Proof. vm_compute. reflexivity. Qed.

(** The keys are the 91 codes of the source table. *)
Lemma offset_map_keys region :
  is_Some (_offset_map !! region) <->
  In region (List.map cps (concat regions_src)).
Proof.
  set (codes := List.map cps (concat regions_src)).
  assert (Hl : forallb (fun kv : list N * (Z * Z) =>
                          bool_decide (kv.1 ∈ codes))
                 (map_to_list _offset_map) = true)
    by (vm_compute; reflexivity).
  assert (Hr : forallb (fun r => bool_decide (is_Some (_offset_map !! r)))
                 codes = true)
    by (vm_compute; reflexivity).
  rewrite forallb_forall in Hl, Hr. split.
  - intros [[xo yo] H].
    apply elem_of_map_to_list, list_elem_of_In, Hl in H.
    apply bool_decide_eq_true_1 in H. now apply list_elem_of_In.
  - intros H. apply Hr in H. now apply bool_decide_eq_true_1 in H.
Qed.

(** Offsets sit on the 7 x 13 lattice of 100 km squares. *)
Lemma offset_map_lattice region xo yo :
  _offset_map !! region = Some (xo, yo) ->
  exists i j, 0 <= i < 7 /\ 0 <= j < 13
              /\ xo = 100000 * i /\ yo = 100000 * j.
Proof.
  intros H.
  pose (on_lattice := fun kv : list N * (Z * Z) =>
          (kv.2.1 mod 100000 =? 0) && (0 <=? kv.2.1) && (kv.2.1 <? 700000)
          && (kv.2.2 mod 100000 =? 0) && (0 <=? kv.2.2)
          && (kv.2.2 <? 1300000)).
  assert (HF : forallb on_lattice (map_to_list _offset_map) = true)
    by (vm_compute; reflexivity).
  rewrite forallb_forall in HF.
  apply elem_of_map_to_list, list_elem_of_In, HF in H.
  unfold on_lattice in H. cbn [fst snd] in H.
  exists (xo / 100000), (yo / 100000).
  assert (Hx := Z.div_mod xo 100000 ltac:(lia)).
  assert (Hy := Z.div_mod yo 100000 ltac:(lia)).
  lia.
Qed.

(** ** Range of the results

    With digits valued 0..9, every number [to_osgb36] computes is a
    non-negative integer below [2^53]: the floats of the source
    ([1e5 * i] and the sums with it) are exact. *)
Section Range.

Variable unicode_upper : N -> list N.
Variable unicode_decimal : N -> option Z.
Hypothesis decimal_values :
  forall c v, unicode_decimal c = Some v -> 0 <= v <= 9.

Lemma digit_value_range c :
  is_digit unicode_decimal c = true ->
  0 <= digit_value unicode_decimal c <= 9.
Proof using decimal_values.
  unfold is_digit, digit_value.
  destruct (c <? 128)%N.
  { intros H. apply andb_prop in H as [H1 H2].
    apply N.leb_le in H1, H2. lia. }
  intros H. apply bool_decide_eq_true_1 in H as [v Hv].
  rewrite Hv. cbn. eauto.
Qed.

Lemma py_int_range ds :
  forallb (is_digit unicode_decimal) ds = true ->
  0 <= py_int unicode_decimal ds < 10 ^ Z.of_nat (length ds).
Proof using decimal_values.
  unfold py_int. intros H.
  assert (G : forall acc, 0 <= acc ->
            acc * 10 ^ Z.of_nat (length ds)
            <= foldl (fun a c => 10 * a + digit_value unicode_decimal c) acc ds
            < (acc + 1) * 10 ^ Z.of_nat (length ds)).
  { induction ds as [|c ds' IH]; intros acc Hacc.
    - cbn. lia.
    - cbn [forallb] in H. apply andb_prop in H as [Hc Hds].
      apply digit_value_range in Hc.
      cbn [foldl length]. specialize (IH Hds (10 * acc + digit_value unicode_decimal c)
                    ltac:(lia)).
      rewrite Nat2Z.inj_succ, Z.pow_succ_r by lia.
      assert (0 < 10 ^ Z.of_nat (length ds')) by (apply Z.pow_pos_nonneg; lia).
      nia. }
  specialize (G 0 ltac:(lia)). lia.
Qed.

Lemma to_osgb36_range g x y r :
  to_osgb36 unicode_upper unicode_decimal g = Ok (x, y, r) ->
  0 <= x < 700000 /\ 0 <= y < 1300000
  /\ In r [10; 100; 1000; 10000] /\ 700000 < 2 ^ 53 /\ 1300000 < 2 ^ 53.
Proof using decimal_values.
  unfold to_osgb36, upper_and_match.
  destruct g as [s| | | |]; try discriminate.
  destruct (re_match _ _) as [[region coords]|] eqn:M; [|discriminate].
  destruct (_offset_map !! region) as [[xo yo]|] eqn:O; [|discriminate].
  cbv zeta. intros [= <- <- <-].
  apply offset_map_lattice in O as (i & j & Hi & Hj & -> & ->).
  apply re_match_Some in M
    as (a & b & tail & _ & _ & _ & _ & Hlen & Hdig & _).
  set (h := (length coords / 2)%nat).
  assert (Hsplit : forallb (is_digit unicode_decimal)
                     (take h coords ++ drop h coords) = true)
    by (now rewrite take_drop).
  rewrite forallb_app in Hsplit. apply andb_prop in Hsplit as [Ht Hd].
  apply py_int_range in Ht, Hd.
  rewrite length_take in Ht. rewrite length_drop in Hd.
  cbn [In] in Hlen |- *.
  destruct Hlen as [L | [L | [L | [L | []]]]];
    subst h; rewrite <- L in *; cbn in Ht, Hd |- *; lia.
Qed.

End Range.

(** ** More on the region-offset table *)

(** Two codes never share an offset. *)
Lemma offset_map_injective (k1 k2 : list N) (v : Z * Z) :
  _offset_map !! k1 = Some v -> _offset_map !! k2 = Some v -> k1 = k2.
Proof.
  intros H1 H2.
  pose (same_key := fun p q : list N * (Z * Z) =>
          implb (bool_decide (p.2 = q.2)) (bool_decide (p.1 = q.1))).
  assert (HF : forallb (fun p => forallb (same_key p)
                                   (map_to_list _offset_map))
                 (map_to_list _offset_map) = true)
    by (vm_compute; reflexivity).
  rewrite forallb_forall in HF.
  apply elem_of_map_to_list, list_elem_of_In in H1, H2.
  specialize (HF _ H1). rewrite forallb_forall in HF.
  specialize (HF _ H2). unfold same_key in HF. cbn [fst snd] in HF.
  rewrite bool_decide_eq_true_2 in HF by reflexivity.
  cbn [implb] in HF. apply bool_decide_eq_true_1 in HF. exact HF.
Qed.

(** X1.  The code written in row [r] (from the top) and column [c] of
    the table in [_init_regions_and_offsets] is mapped to the offset
    [(100000 * c, 100000 * (12 - r))]: columns run east, rows run
    north from the bottom row; the map holds these 91 codes and no
    other key, and no two codes share an offset. *)
Theorem offset_map_layout :
  (forall r c row code,
      regions_src !! r = Some row -> row !! c = Some code ->
      _offset_map !! cps code
      = Some (100000 * Z.of_nat c, 100000 * (12 - Z.of_nat r)))
  /\ (forall key, is_Some (_offset_map !! key) ->
        exists r c row code,
          regions_src !! r = Some row /\ row !! c = Some code
          /\ key = cps code)
  /\ (forall k1 k2 v,
        _offset_map !! k1 = Some v -> _offset_map !! k2 = Some v -> k1 = k2).
Proof.
  split; [|split].
  - intros r c row code Hr Hc.
    assert (HF : forallb
              (fun r0 =>
                 forallb
                   (fun c0 =>
                      match regions_src !! r0 ≫= (fun row0 => row0 !! c0) with
                      | Some code0 =>
                          bool_decide
                            (_offset_map !! cps code0
                             = Some (100000 * Z.of_nat c0,
                                     100000 * (12 - Z.of_nat r0)))
                      | None => true
                      end) (seq 0 7)) (seq 0 13) = true)
      by (vm_compute; reflexivity).
    rewrite forallb_forall in HF.
    assert (Hr13 : (r < 13)%nat)
      by (apply lookup_lt_Some in Hr; exact Hr).
    assert (Hc7 : (c < 7)%nat).
    { pose proof (lookup_lt_Some _ _ _ Hc) as Hlt.
      assert (HL : Forall (fun row0 : list string => length row0 = 7%nat)
                     regions_src) by (repeat constructor).
      rewrite Forall_forall in HL.
      rewrite (HL row) in Hlt; [exact Hlt|].
      eapply list_elem_of_lookup_2. exact Hr. }
    specialize (HF r ltac:(apply in_seq; lia)).
    rewrite forallb_forall in HF.
    specialize (HF c ltac:(apply in_seq; lia)).
    rewrite Hr in HF. cbn [mbind option_bind] in HF. rewrite Hc in HF.
    now apply bool_decide_eq_true_1 in HF.
  - intros key Hk. apply offset_map_keys in Hk.
    apply in_map_iff in Hk as (code & <- & Hin).
    apply in_concat in Hin as (row & Hrow & Hcode).
    apply list_elem_of_In, list_elem_of_lookup_1 in Hrow as [r Hr].
    apply list_elem_of_In, list_elem_of_lookup_1 in Hcode as [c Hc].
    now exists r, c, row, code.
  - apply offset_map_injective.
Qed.

(** ** Reading digits in base ten *)

Lemma decimal_from (acc : Z) (ds : list N) :
  foldl (fun a c => 10 * a + (Z.of_N c - 48)) acc ds
  = acc * 10 ^ Z.of_nat (length ds) + decimal ds.
Proof.
  unfold decimal. revert acc.
  induction ds as [|c ds IH]; intros acc; [cbn; lia|].
  cbn [foldl length]. rewrite IH, (IH (10 * 0 + (Z.of_N c - 48))).
  rewrite Nat2Z.inj_succ, Z.pow_succ_r by lia. lia.
Qed.

Lemma decimal_cons (c : N) (ds : list N) :
  decimal (c :: ds)
  = (Z.of_N c - 48) * 10 ^ Z.of_nat (length ds) + decimal ds.
Proof.
  unfold decimal at 1. cbn [foldl]. rewrite decimal_from. lia.
Qed.

Lemma decimal_range (ds : list N) :
  Forall (fun c => ascii_digit c = true) ds ->
  0 <= decimal ds < 10 ^ Z.of_nat (length ds).
Proof.
  induction 1 as [|c ds Hc _ IH]; [cbn; lia|].
  rewrite decimal_cons. cbn [length].
  rewrite Nat2Z.inj_succ, Z.pow_succ_r by lia.
  unfold ascii_digit in Hc.
  assert (0 < 10 ^ Z.of_nat (length ds)) by (apply Z.pow_pos_nonneg; lia).
  nia.
Qed.

(** Two digit runs of one length with one value are the same run. *)
Lemma decimal_inj (ds1 ds2 : list N) :
  Forall (fun c => ascii_digit c = true) ds1 ->
  Forall (fun c => ascii_digit c = true) ds2 ->
  length ds1 = length ds2 -> decimal ds1 = decimal ds2 -> ds1 = ds2.
Proof.
  intros H1. revert ds2.
  induction H1 as [|c1 ds1 Hc1 Hd1 IH]; intros ds2 H2 Hlen Hdec.
  - destruct ds2; [reflexivity | discriminate Hlen].
  - destruct H2 as [|c2 ds2 Hc2 Hd2]; [discriminate Hlen|].
    cbn [length] in Hlen. injection Hlen as Hlen.
    rewrite !decimal_cons, <- Hlen in Hdec.
    pose proof (decimal_range ds1 Hd1) as R1.
    pose proof (decimal_range ds2 Hd2) as R2. rewrite <- Hlen in R2.
    unfold ascii_digit in Hc1, Hc2.
    assert (Hc : Z.of_N c1 = Z.of_N c2) by nia.
    assert (c1 = c2) by lia. subst c2.
    f_equal. apply IH; [assumption | assumption | lia].
Qed.

Section DecoderOutcomes.

Variable unicode_upper : N -> list N.
Variable unicode_decimal : N -> option Z.

Local Abbreviation decode := (to_osgb36 unicode_upper unicode_decimal).

(** The result on a string of the documented format, with the table
    look-up left open. *)
Lemma to_osgb36_documented (a b : N) (ds : list N) (h : nat) :
  ascii_letter a = true -> ascii_letter b = true ->
  Forall (fun c => ascii_digit c = true) ds ->
  length ds = (2 * h)%nat -> (2 <= h <= 5)%nat ->
  forall tail, tail = [] \/ tail = [10%N] ->
  decode (PyStr (a :: b :: ds ++ tail))
  = match _offset_map !! [ascii_upper a; ascii_upper b] with
    | Some (xo, yo) =>
        Ok (decimal (take h ds) * 10 ^ (5 - Z.of_nat h) + xo,
            decimal (drop h ds) * 10 ^ (5 - Z.of_nat h) + yo,
            10 ^ (6 - Z.of_nat h))
    | None => Raise (UnknownRegion [ascii_upper a; ascii_upper b])
    end.
Proof.
  intros Ha Hb Hd Hlen Hh tail Ht.
  assert (Hm : re_match unicode_decimal
                 (str_upper unicode_upper (a :: b :: ds ++ tail))
               = Some ([ascii_upper a; ascii_upper b], ds)).
  { apply re_match_Some. exists (ascii_upper a), (ascii_upper b), tail.
    destruct (upper_cp_letter unicode_upper a Ha) as [Ua Za].
    destruct (upper_cp_letter unicode_upper b Hb) as [Ub Zb].
    repeat split; try assumption.
    - unfold str_upper. cbn [List.map concat]. rewrite Ua, Ub.
      cbn [app]. do 2 f_equal. rewrite List.map_app, concat_app.
      fold (str_upper unicode_upper ds).
      rewrite str_upper_digits by assumption. f_equal.
      destruct Ht as [-> | ->]; reflexivity.
    - rewrite Hlen. cbn [In].
      assert (Hc : h = 2%nat \/ h = 3%nat \/ h = 4%nat \/ h = 5%nat) by lia.
      destruct Hc as [-> | [-> | [-> | ->]]]; cbn; auto.
    - now apply forallb_is_digit. }
  unfold to_osgb36, upper_and_match. rewrite Hm.
  destruct (_offset_map !! [ascii_upper a; ascii_upper b])
    as [[xo yo]|]; [|reflexivity].
  cbv zeta.
  assert (Hhalf : (length ds / 2)%nat = h)
    by (rewrite Hlen, Nat.mul_comm; apply Nat.div_mul; lia).
  rewrite Hhalf.
  assert (Hsplit : Forall (fun c => ascii_digit c = true)
                     (take h ds ++ drop h ds)) by (now rewrite take_drop).
  apply Forall_app in Hsplit as [Ht1 Ht2].
  now rewrite !py_int_decimal by assumption.
Qed.

(** A string of the documented format, taken apart. *)
Lemma documented_format_parts (s : list N) :
  documented_format s ->
  exists a b ds h,
    s = a :: b :: ds /\ ascii_letter a = true /\ ascii_letter b = true
    /\ Forall (fun c => ascii_digit c = true) ds
    /\ length ds = (2 * h)%nat /\ (2 <= h <= 5)%nat.
Proof.
  intros (a & b & ds & -> & Ha & Hb & Hd & Hl).
  exists a, b, ds, (length ds / 2)%nat.
  repeat split; try assumption; cbn [In] in Hl;
    destruct Hl as [L | [L | [L | [L | []]]]]; rewrite <- L; cbn; lia.
Qed.

Lemma map_ascii_upper_digits (ds : list N) :
  Forall (fun c => ascii_digit c = true) ds -> List.map ascii_upper ds = ds.
Proof.
  induction 1 as [|c ds Hc _ IH]; [reflexivity|].
  cbn [List.map]. now rewrite IH, ascii_upper_of_digit.
Qed.

(** X2.  Decoding loses nothing but the case of the letters: two
    strings of the documented format (two ASCII letters, then 4, 6, 8
    or 10 ASCII digits) that decode to the same easting, northing and
    resolution are equal once upper-cased. *)
Theorem to_osgb36_injective (s1 s2 : list N) (v : Z * Z * Z) :
  documented_format s1 -> documented_format s2 ->
  decode (PyStr s1) = Ok v -> decode (PyStr s2) = Ok v ->
  List.map ascii_upper s1 = List.map ascii_upper s2.
Proof.
  intros (a1 & b1 & ds1 & h1 & -> & Ha1 & Hb1 & Hd1 & Hl1 & Hh1)
           %documented_format_parts
         (a2 & b2 & ds2 & h2 & -> & Ha2 & Hb2 & Hd2 & Hl2 & Hh2)
           %documented_format_parts.
  rewrite <- (app_nil_r ds1), <- (app_nil_r ds2).
  rewrite (to_osgb36_documented a1 b1 ds1 h1), (to_osgb36_documented a2 b2 ds2 h2)
    by auto.
  rewrite !app_nil_r.
  destruct (_offset_map !! [ascii_upper a1; ascii_upper b1])
    as [[xo1 yo1]|] eqn:O1; [|discriminate].
  destruct (_offset_map !! [ascii_upper a2; ascii_upper b2])
    as [[xo2 yo2]|] eqn:O2; [|discriminate].
  intros [= <-] [= Hx Hy Hr].
  assert (Hsplit1 : Forall (fun c => ascii_digit c = true)
                      (take h1 ds1 ++ drop h1 ds1)) by (now rewrite take_drop).
  assert (Hsplit2 : Forall (fun c => ascii_digit c = true)
                      (take h2 ds2 ++ drop h2 ds2)) by (now rewrite take_drop).
  apply Forall_app in Hsplit1 as [Te1 Tn1].
  apply Forall_app in Hsplit2 as [Te2 Tn2].
  pose proof (decimal_range _ Te1) as Re1.
  pose proof (decimal_range _ Tn1) as Rn1.
  pose proof (decimal_range _ Te2) as Re2.
  pose proof (decimal_range _ Tn2) as Rn2.
  rewrite length_take in Re1, Re2. rewrite length_drop in Rn1, Rn2.
  rewrite Hl1 in Re1, Rn1. rewrite Hl2 in Re2, Rn2.
  pose proof (offset_map_lattice _ _ _ O1) as (i1 & j1 & Hi1 & Hj1 & -> & ->).
  pose proof (offset_map_lattice _ _ _ O2) as (i2 & j2 & Hi2 & Hj2 & -> & ->).
  assert (Hc1 : h1 = 2%nat \/ h1 = 3%nat \/ h1 = 4%nat \/ h1 = 5%nat) by lia.
  assert (Hc2 : h2 = 2%nat \/ h2 = 3%nat \/ h2 = 4%nat \/ h2 = 5%nat) by lia.
  assert (Hh : h1 = h2).
  { destruct Hc1 as [-> | [-> | [-> | ->]]];
      destruct Hc2 as [-> | [-> | [-> | ->]]];
      try reflexivity; cbn in Hr; discriminate Hr. }
  subst h2.
  assert (Hvals : decimal (take h1 ds1) = decimal (take h1 ds2)
                  /\ decimal (drop h1 ds1) = decimal (drop h1 ds2)
                  /\ i1 = i2 /\ j1 = j2).
  { clear Hr.
    destruct Hc1 as [-> | [-> | [-> | ->]]];
      cbn in Hx, Hy, Re1, Re2, Rn1, Rn2; lia. }
  destruct Hvals as (He & Hn & -> & ->).
  assert (Hkey : [ascii_upper a1; ascii_upper b1]
                 = [ascii_upper a2; ascii_upper b2])
    by (eapply offset_map_injective; eassumption).
  injection Hkey as Ea Eb.
  assert (Et : take h1 ds1 = take h1 ds2).
  { apply decimal_inj; try assumption. rewrite !length_take. lia. }
  assert (Ed : drop h1 ds1 = drop h1 ds2).
  { apply decimal_inj; try assumption. rewrite !length_drop. lia. }
  cbn [List.map]. rewrite Ea, Eb, !map_ascii_upper_digits by assumption.
  do 2 f_equal.
  now rewrite <- (take_drop h1 ds1), <- (take_drop h1 ds2), Et, Ed.
Qed.

(** The strings the pattern lets through: the documented format, with
    or without one final newline. *)
Definition accepted_format (s : list N) : Prop :=
  exists s' tail,
    s = s' ++ tail /\ documented_format s' /\ (tail = [] \/ tail = [10%N]).

Lemma re_match_ascii_parts (s region coords : list N) :
  Forall (fun c => (c < 128)%N) s ->
  re_match unicode_decimal (str_upper unicode_upper s)
  = Some (region, coords) ->
  exists a b ds h tail,
    s = a :: b :: ds ++ tail
    /\ ascii_letter a = true /\ ascii_letter b = true
    /\ Forall (fun c => ascii_digit c = true) ds
    /\ length ds = (2 * h)%nat /\ (2 <= h <= 5)%nat
    /\ (tail = [] \/ tail = [10%N]).
Proof.
  intros Hs M.
  apply re_match_Some in M
    as (A & B & tail & E & _ & HA & HB & Hl & Hdig & Ht).
  rewrite str_upper_ascii in E by assumption.
  destruct s as [|a [|b rest]]; try discriminate E.
  cbn [List.map] in E. injection E as <- <- E.
  change (List.map ascii_upper rest) with (ascii_upper <$> rest) in E.
  apply fmap_app_inv in E as (ds & ts & -> & -> & ->).
  rewrite ascii_upper_AZ in HA, HB.
  inversion Hs as [|? ? _ Hs']; subst.
  inversion Hs' as [|? ? _ Hs'']; subst.
  apply Forall_app in Hs'' as [Hds Hts].
  assert (Hd : Forall (fun c => ascii_digit c = true) ds).
  { clear -Hds Hdig. induction Hds as [|c ds Hc _ IH]; [constructor|].
    cbn [fmap list_fmap forallb] in Hdig.
    apply andb_prop in Hdig as [H1 H2].
    rewrite ascii_upper_digit in H1 by assumption.
    constructor; [assumption | now apply IH]. }
  rewrite length_fmap in Hl.
  exists a, b, ds, (length ds / 2)%nat, ts.
  assert (Hlen : length ds = (2 * (length ds / 2))%nat
                 /\ (2 <= length ds / 2 <= 5)%nat).
  { cbn [In] in Hl.
    destruct Hl as [L | [L | [L | [L | []]]]]; rewrite <- L; cbn; lia. }
  destruct Hlen as [Hlen Hh].
  repeat split; try assumption; try apply Hh.
  destruct Ht as [Ht | Ht].
  - apply fmap_nil_inv in Ht as ->. now left.
  - destruct ts as [|c [|c' ts]]; try discriminate Ht.
    injection Ht as Ec. apply ascii_upper_newline in Ec as ->.
    now right.
Qed.

Lemma decode_ascii_cases (s : list N) :
  Forall (fun c => (c < 128)%N) s ->
  (~ accepted_format s /\ decode (PyStr s) = Raise InvalidFormat)
  \/ (exists a b ds h tail,
        s = a :: b :: ds ++ tail
        /\ ascii_letter a = true /\ ascii_letter b = true
        /\ Forall (fun c => ascii_digit c = true) ds
        /\ length ds = (2 * h)%nat /\ (2 <= h <= 5)%nat
        /\ (tail = [] \/ tail = [10%N])).
Proof.
  intros Hs.
  destruct (re_match unicode_decimal (str_upper unicode_upper s))
    as [[region coords]|] eqn:M.
  - right. eapply re_match_ascii_parts; eassumption.
  - left.
    assert (D : decode (PyStr s) = Raise InvalidFormat)
      by (unfold to_osgb36, upper_and_match; now rewrite M).
    split; [|exact D].
    apply to_osgb36_ascii_invalid_format in D; [|assumption].
    intros (s' & tail & -> & Hd & [-> | ->]); apply D.
    + left. now rewrite app_nil_r.
    + right. now exists s'.
Qed.

(** X3.  On ASCII strings the three outcomes are decided by the format
    and the table alone.  [to_osgb36] raises the bad-input error
    exactly on the strings that are not of the documented format, with
    or without one final newline; it raises the unknown-square error
    exactly on the strings of that format whose upper-cased first two
    letters are none of the 91 codes, and names that pair; it returns
    coordinates on all the others. *)
Theorem to_osgb36_ascii_outcomes (s : list N) :
  Forall (fun c => (c < 128)%N) s ->
  let prefix := List.map ascii_upper (take 2 s) in
  let codes := List.map cps (concat regions_src) in
  (decode (PyStr s) = Raise InvalidFormat <-> ~ accepted_format s)
  /\ (forall region,
        decode (PyStr s) = Raise (UnknownRegion region) <->
        accepted_format s /\ region = prefix /\ ~ In prefix codes)
  /\ ((exists v, decode (PyStr s) = Ok v) <->
      accepted_format s /\ In prefix codes).
Proof.
  intros Hs. cbv zeta.
  destruct (decode_ascii_cases s Hs)
    as [[Hn Hinv] | (a & b & ds & h & tail & -> & Ha & Hb & Hd & Hl & Hh & Ht)].
  - rewrite Hinv. split; [|split].
    + split; [intros _; exact Hn | reflexivity].
    + intros region. split; [discriminate | intros [Hacc _]; now destruct Hn].
    + split; [intros [v Hv]; discriminate Hv | intros [Hacc _]; now destruct Hn].
  - assert (Hacc : accepted_format (a :: b :: ds ++ tail)).
    { exists (a :: b :: ds), tail. split; [reflexivity|]. split; [|exact Ht].
      exists a, b, ds. repeat split; try assumption.
      rewrite Hl. cbn [In].
      assert (Hc : h = 2%nat \/ h = 3%nat \/ h = 4%nat \/ h = 5%nat) by lia.
      destruct Hc as [-> | [-> | [-> | ->]]]; cbn; auto. }
    rewrite (to_osgb36_documented a b ds h) by assumption.
    cbn [take List.map].
    pose proof (offset_map_keys [ascii_upper a; ascii_upper b]) as Hkeys.
    destruct (_offset_map !! [ascii_upper a; ascii_upper b])
      as [[xo yo]|] eqn:O.
    + assert (Hin : In [ascii_upper a; ascii_upper b]
                      (List.map cps (concat regions_src)))
        by (apply Hkeys; eauto).
      split; [|split].
      * split; [discriminate | intros Hn; now destruct Hn].
      * intros region. split; [discriminate|].
        intros (_ & _ & Hn). now destruct Hn.
      * split; [auto | eauto].
    + assert (Hnin : ~ In [ascii_upper a; ascii_upper b]
                       (List.map cps (concat regions_src))).
      { intros Hin. apply Hkeys in Hin as [x Hx]. discriminate Hx. }
      split; [|split].
      * split; [discriminate | intros Hn; now destruct Hn].
      * intros region. split.
        -- intros [= <-]. auto.
        -- intros (_ & -> & _). reflexivity.
      * split; [intros [v Hv]; discriminate Hv|].
        intros [_ Hin]. now destruct Hnin.
Qed.

End DecoderOutcomes.

(** ** Where the decoded point lies *)

Section OnGrid.

Variable unicode_upper : N -> list N.
Variable unicode_decimal : N -> option Z.
Hypothesis decimal_values :
  forall c v, unicode_decimal c = Some v -> 0 <= v <= 9.

(** X4.  With digits valued 0 to 9, whenever [to_osgb36] returns
    [(x, y, resolution)] there is a half-length [h] in 2..5 with
    [resolution = 10^(6-h)]; [x] and [y] are multiples of the scale
    [10^(5-h)], and the scale-sized square from [(x, y)] lies inside
    the 700 km by 1300 km extent of the grid: [0 <= x],
    [x + 10^(5-h) <= 700000], [0 <= y], [y + 10^(5-h) <= 1300000]. *)
Theorem to_osgb36_on_grid (g : pyobj) (x y r : Z) :
  to_osgb36 unicode_upper unicode_decimal g = Ok (x, y, r) ->
  exists h : Z,
    2 <= h <= 5 /\ r = 10 ^ (6 - h)
    /\ (10 ^ (5 - h) | x) /\ (10 ^ (5 - h) | y)
    /\ 0 <= x /\ x + 10 ^ (5 - h) <= 700000
    /\ 0 <= y /\ y + 10 ^ (5 - h) <= 1300000.
Proof using decimal_values.
  unfold to_osgb36, upper_and_match.
  destruct g as [s| | | |]; try discriminate.
  destruct (re_match _ _) as [[region coords]|] eqn:M; [|discriminate].
  destruct (_offset_map !! region) as [[xo yo]|] eqn:O; [|discriminate].
  cbv zeta. set (h := (length coords / 2)%nat). intros [= <- <- <-].
  apply offset_map_lattice in O as (i & j & Hi & Hj & -> & ->).
  apply re_match_Some in M
    as (a & b & tail & _ & _ & _ & _ & Hlen & Hdig & _).
  assert (Hsplit : forallb (is_digit unicode_decimal)
                     (take h coords ++ drop h coords) = true)
    by (now rewrite take_drop).
  rewrite forallb_app in Hsplit. apply andb_prop in Hsplit as [Ht Hd].
  apply (py_int_range unicode_decimal decimal_values) in Ht, Hd.
  rewrite length_take in Ht. rewrite length_drop in Hd.
  set (e := py_int unicode_decimal (take h coords)) in *.
  set (n := py_int unicode_decimal (drop h coords)) in *.
  assert (Hh : length coords = (2 * h)%nat /\ (2 <= h <= 5)%nat).
  { subst h. cbn [In] in Hlen.
    destruct Hlen as [L | [L | [L | [L | []]]]]; rewrite <- L; cbn; lia. }
  destruct Hh as [Hl Hh].
  replace (h `min` length coords)%nat with h in Ht by lia.
  replace (length coords - h)%nat with h in Hd by lia.
  clearbody e n. clear Hdig Hlen Hl. clearbody h.
  exists (Z.of_nat h).
  assert (Hcases : forall S k : Z,
            0 < k -> k * S = 100000 -> 0 <= e < k -> 0 <= n < k ->
            (S | e * S + 100000 * i) /\ (S | n * S + 100000 * j)
            /\ 0 <= e * S + 100000 * i
            /\ e * S + 100000 * i + S <= 700000
            /\ 0 <= n * S + 100000 * j
            /\ n * S + 100000 * j + S <= 1300000).
  { intros S k Hk HS He Hn.
    split; [exists (e + k * i); nia|].
    split; [exists (n + k * j); nia|]. nia. }
  assert (Hc : h = 2%nat \/ h = 3%nat \/ h = 4%nat \/ h = 5%nat) by lia.
  split; [lia|]. split; [reflexivity|].
  destruct Hc as [-> | [-> | [-> | ->]]].
  - apply (Hcases _ 100); cbn in Ht, Hd |- *; lia.
  - apply (Hcases _ 1000); cbn in Ht, Hd |- *; lia.
  - apply (Hcases _ 10000); cbn in Ht, Hd |- *; lia.
  - apply (Hcases _ 100000); cbn in Ht, Hd |- *; lia.
Qed.

End OnGrid.

(** ** Closed instances, continued *)

(** X2 at ["nt1234"] and ["NT1234"]. *)
Lemma to_osgb36_injective_witness :
  List.map ascii_upper (cps "nt1234") = List.map ascii_upper (cps "NT1234").
Proof.
  apply (to_osgb36_injective ascii_only_upper ascii_only_decimal
           (cps "nt1234") (cps "NT1234") (312000, 634000, 10000)).
  - exists 110%N, 116%N, (cps "1234").
    repeat split; try reflexivity; [repeat constructor | cbn; auto].
  - exists 78%N, 84%N, (cps "1234").
    repeat split; try reflexivity; [repeat constructor | cbn; auto].
  - vm_compute. reflexivity.
  - vm_compute. reflexivity.
Defined.

(** X3 at ["ZZ1234"], a string of the format with an unassigned pair. *)
Lemma to_osgb36_ascii_outcomes_witness :
  let s := cps "ZZ1234" in
  let decode := to_osgb36 ascii_only_upper ascii_only_decimal in
  let prefix := List.map ascii_upper (take 2 s) in
  let codes := List.map cps (concat regions_src) in
  (decode (PyStr s) = Raise InvalidFormat <-> ~ accepted_format s)
  /\ (forall region,
        decode (PyStr s) = Raise (UnknownRegion region) <->
        accepted_format s /\ region = prefix /\ ~ In prefix codes)
  /\ ((exists v, decode (PyStr s) = Ok v) <->
      accepted_format s /\ In prefix codes).
Proof.
  cbv zeta.
  apply (to_osgb36_ascii_outcomes ascii_only_upper ascii_only_decimal
           (cps "ZZ1234")).
  repeat constructor.
Defined.

(** X4 at ["NT1234"]. *)
Lemma to_osgb36_on_grid_witness :
  exists h : Z,
    2 <= h <= 5 /\ 10000 = 10 ^ (6 - h)
    /\ (10 ^ (5 - h) | 312000) /\ (10 ^ (5 - h) | 634000)
    /\ 0 <= 312000 /\ 312000 + 10 ^ (5 - h) <= 700000
    /\ 0 <= 634000 /\ 634000 + 10 ^ (5 - h) <= 1300000.
Proof.
  apply (to_osgb36_on_grid ascii_only_upper ascii_only_decimal)
    with (g := PyStr (cps "NT1234")).
  - intros c v H. discriminate H.
  - vm_compute. reflexivity.
Defined.

End Geo.


(* ================================================================== *)
Module UpdateData.

Import Geo.

(** [shapely.geometry.box(minx, miny, maxx, maxy)] *)
Record bbox : Type := Box { xmin : Q; ymin : Q; xmax : Q; ymax : Q }.

(** ** numpy *)

(** [x % m] for a float [x] and [m <> 0]: the remainder of the floored
    division, of the sign of [m]. *)
Definition pymod (x : Q) (m : Z) : Q :=
  (x - inject_Z m * inject_Z (Qfloor (x / inject_Z m)))%Q.

(** [np.arange(start, stop, step)]: [ceil((stop - start) / step)]
    values [start + i * step]; none when that count is not positive. *)
Definition arange (start stop : Q) (step : Z) : list Q :=
  List.map (fun i => (start + inject_Z (Z.of_nat i) * inject_Z step)%Q)
    (seq 0 (Z.to_nat (Qceiling ((stop - start) / inject_Z step)))).

(** [np.meshgrid(x, y)] with the default ['xy'] indexing: both results
    have one row per entry of [y] and one column per entry of [x]. *)
Definition meshgrid (x y : list Q) : list (list Q) * list (list Q) :=
  (List.map (fun _ => x) y, List.map (fun yv => List.map (fun _ => yv) x) y).

(** [a.flatten()], row-major. *)
Definition flatten (a : list (list Q)) : list Q := concat a.

(** [zip(a, b, c, d)], as long as the shortest. *)
Fixpoint zip4 {A B C D} (a : list A) (b : list B) (c : list C) (d : list D)
  : list (A * B * C * D) :=
  match a, b, c, d with
  | a0 :: a', b0 :: b', c0 :: c', d0 :: d' =>
      (a0, b0, c0, d0) :: zip4 a' b' c' d'
  | _, _, _, _ => []
  end.

(** [box(xmin, ymin, xmax, ymax)] on one tuple of the [zip]. *)
Definition mk_box (t : Q * Q * Q * Q) : bbox :=
  let '(xmin, ymin, xmax, ymax) := t in Box xmin ymin xmax ymax.

(** ** [tile_gdf] *)

Section Tiling.

(** geopandas and shapely, as far as [tile_gdf] uses them. *)
Variable GeoDataFrame : Type.
Variable geometry : Type.
Variable to_crs : GeoDataFrame -> Z -> GeoDataFrame.
Variable total_bounds : GeoDataFrame -> Q * Q * Q * Q.
Variable make_valid : GeoDataFrame -> GeoDataFrame.
Variable buffer0 : GeoDataFrame -> GeoDataFrame.
Variable union_all : GeoDataFrame -> geometry.
Variable intersects : bbox -> geometry -> bool.

(** "confrom the bounding box to the the side_length" *)
Definition conform (bounds : Q * Q * Q * Q) (side_length : Z)
  : Q * Q * Q * Q :=
  let '(minx, miny, maxx, maxy) := bounds in
  let minx := (minx - pymod minx side_length)%Q in
  let miny := (miny - pymod miny side_length)%Q in
  let maxx := (maxx + (inject_Z side_length - pymod maxx side_length))%Q in
  let maxy := (maxy + (inject_Z side_length - pymod maxy side_length))%Q in
  (minx, miny, maxx, maxy).

(** The candidate boxes over conformed bounds. *)
Definition grid_boxes (conformed : Q * Q * Q * Q) (side_length : Z)
  : list bbox :=
  let '(minx, miny, maxx, maxy) := conformed in
  let x := arange minx maxx side_length in
  let y := arange miny maxy side_length in
  let '(xx, yy) := meshgrid x y in
  let xmins := flatten xx in
  let ymins := flatten yy in
  let xmaxs := List.map (fun v => (v + inject_Z side_length)%Q) xmins in
  let ymaxs := List.map (fun v => (v + inject_Z side_length)%Q) ymins in
  List.map mk_box (zip4 xmins ymins xmaxs ymaxs).

(** [None]: the call raises ([side_length = 0] makes the bounds NaN and
    [np.arange] refuses a zero step).  [origin_x] and [origin_y] are
    parameters of the source function that its body never reads. *)
Definition tile_gdf (gdf : GeoDataFrame) (side_length : Z) (tile_crs : Z)
    (origin_x origin_y : Z) (filter_empty : bool) : option (list bbox) :=
  if (side_length =? 0)%Z then None
  else
    let gdf := to_crs gdf tile_crs in
    let bounds := total_bounds gdf in
    let box_gdf := grid_boxes (conform bounds side_length) side_length in
    if filter_empty then
      let gdf := make_valid gdf in
      let gdf := buffer0 gdf in
      Some (List.filter (fun b => intersects b (union_all gdf)) box_gdf)
    else Some box_gdf.


(** ** Reading the result of [tile_gdf] *)





(** ** Arithmetic of the floored remainder *)




Lemma slab_unique (s k k' : Z) (x : Q) :
  (0 < s)%Z ->
  (inject_Z (s * k) <= x < inject_Z (s * (k + 1)))%Q ->
  (inject_Z (s * k') <= x < inject_Z (s * (k' + 1)))%Q ->
  k = k'.
Proof.
  intros Hs [H1 H2] [H3 H4].
  assert (A : (inject_Z (s * k) < inject_Z (s * (k' + 1)))%Q) by lra.
  assert (B : (inject_Z (s * k') < inject_Z (s * (k + 1)))%Q) by lra.
  rewrite <- Zlt_Qlt in A, B. nia.
Qed.




(** ** The candidate boxes, enumerated *)









(** ** One axis of the grid

    [X0] is the conformed minimum, the [kx0]-th multiple of [s]; column
    [j] spans from [X0 + j * s] to [X0 + j * s + s]. *)






(** ** Facts about [tile_gdf] *)


Lemma sublist_List_filter {A} (f : A -> bool) (l : list A) :
  sublist (List.filter f l) l.
Proof.
  induction l as [|a l IH]; [constructor|].
  cbn [List.filter]. destruct (f a); now constructor.
Qed.

(** C5.  The filtered result is the unfiltered one restricted, in
    order, to the boxes that intersect the union of the repaired
    boundary: it is a sub-list of it, and a box is in it exactly when it
    is a candidate box that intersects that union. *)
Theorem tile_gdf_filter_empty gdf (side_length tile_crs : Z)
    (origin_x origin_y : Z) :
  let boundary :=
    union_all (buffer0 (make_valid (to_crs gdf tile_crs))) in
  tile_gdf gdf side_length tile_crs origin_x origin_y true
  = List.filter (fun b => intersects b boundary)
      <$> tile_gdf gdf side_length tile_crs origin_x origin_y false
  /\ match tile_gdf gdf side_length tile_crs origin_x origin_y true,
           tile_gdf gdf side_length tile_crs origin_x origin_y false with
     | Some kept, Some candidates =>
         sublist kept candidates
         /\ (forall b, In b kept <->
                       In b candidates /\ intersects b boundary = true)
         /\ (forall b, In b candidates -> ~ In b kept ->
                       intersects b boundary = false)
     | None, None => side_length = 0%Z
     | _, _ => False
     end.
Proof using Type.
  cbv zeta. unfold tile_gdf.
  destruct (side_length =? 0)%Z eqn:E; [split; [reflexivity | lia]|].
  split; [reflexivity|]. cbv zeta.
  set (candidates := grid_boxes _ _).
  set (keep := fun b => intersects b _).
  split; [|split].
  - apply sublist_List_filter.
  - intros b. apply filter_In.
  - intros b Hc Hk. destruct (keep b) eqn:K; [|exact K].
    exfalso. apply Hk. apply filter_In. auto.
Qed.




End Tiling.

(** ** Harvest post-processing: [main] after [ingest_data] *)

(** The table handed to [to_parquet]: rows with their geometry, and the
    CRS. *)
Record GeoFrame (row : Type) : Type :=
  { frame_rows : list (row * bbox); frame_crs : string }.
Arguments frame_rows {row} _.
Arguments frame_crs {row} _.

(** What escapes [parse_geometry]: a [BNGError] of [to_osgb36], or the
    [ValueError] of unpacking [zip( *[] )] into three names. *)
Inductive harvest_error : Type :=
  | Decode (e : BNGError)
  | ValueError.

Section Harvest.

(** A row of the flattened results frame, all columns; equality of rows
    is equality on every column. *)
Variable row : Type.
Context `{EqDecision row}.
Variable tile_id : row -> pyobj.

Variable unicode_upper : N -> list N.
Variable unicode_decimal : N -> option Z.

(** [df.duplicated()], [keep='first']: a row is marked when an equal row
    comes before it. *)
Fixpoint duplicated_from (seen : list row) (df : list row) : list bool :=
  match df with
  | [] => []
  | r :: df' => bool_decide (r ∈ seen) :: duplicated_from (r :: seen) df'
  end.

Definition duplicated (df : list row) : list bool := duplicated_from [] df.

(** [df[mask]] *)
Definition select (df : list row) (mask : list bool) : list row :=
  List.map fst (List.filter snd (zip df mask)).

(** [[to_osgb36(tile) for tile in df.tile_id]]: the first failure
    escapes. *)
Fixpoint decode_all (tiles : list pyobj)
  : result BNGError (list (Z * Z * Z)) :=
  match tiles with
  | [] => Ok []
  | t :: ts =>
      match to_osgb36 unicode_upper unicode_decimal t with
      | Raise e => Raise e
      | Ok v =>
          match decode_all ts with
          | Raise e => Raise e
          | Ok vs => Ok (v :: vs)
          end
      end
  end.

Definition parse_geometry (df : list row)
  : result harvest_error (GeoFrame row) :=
  match decode_all (List.map tile_id df) with
  | Raise e => Raise (Decode e)
  | Ok [] => Raise ValueError
  | Ok decoded =>
      let x := List.map (fun t => inject_Z t.1.1) decoded in
      let y := List.map (fun t => inject_Z t.1.2) decoded in
      let resolution := List.map (fun t => inject_Z t.2) decoded in
      let resolution := List.map (fun r => (r / 2)%Q) resolution in
      let xmin := x in
      let xmax := zip_with Qplus x resolution in
      let ymin := y in
      let ymax := zip_with Qplus y resolution in
      let geometry := List.map mk_box (zip4 xmin ymin xmax ymax) in
      Ok {| frame_rows := zip df geometry; frame_crs := "EPSG:27700" |}
  end.

(** [main], from the frame [ingest_data] returned to the frame written
    to [output_path]. *)
Definition main (products_df : list row)
  : result harvest_error (GeoFrame row) :=
  let products_df := select products_df (List.map negb (duplicated products_df)) in
  parse_geometry products_df.

(** ** Facts about the post-processing *)

Lemma select_duplicated_from (seen df : list row) :
  let kept := select df (List.map negb (duplicated_from seen df)) in
  NoDup kept
  /\ (forall r, r ∈ kept <-> r ∈ df /\ r ∉ seen)
  /\ sublist kept df.
Proof using Type.
  cbv zeta. revert seen.
  induction df as [|r df IH]; intros seen.
  - cbn. split; [constructor|]. split; [|constructor].
    intros r. rewrite elem_of_nil. split; [intros [] | intros [[] _]].
  - destruct (IH (r :: seen)) as (Hnd & Hin & Hsub).
    unfold select in *. cbn [duplicated_from List.map zip zip_with].
    cbn [List.filter snd]. destruct (bool_decide (r ∈ seen)) eqn:D.
    + apply bool_decide_eq_true_1 in D. cbn [negb].
      split; [exact Hnd|]. split; [|now constructor].
      intros r0. rewrite Hin, !elem_of_cons. split.
      * intros [H1 H2]. split; [now right | intros H3; apply H2; now right].
      * intros [[E|H1] H2]; [subst r0; destruct (H2 D)|].
        split; [assumption|].
        intros [E|H3]; [subst r0; destruct (H2 D) | destruct (H2 H3)].
    + apply bool_decide_eq_false_1 in D. cbn [negb List.map fst].
      split; [|split; [|now constructor]].
      * apply NoDup_cons. split; [|exact Hnd].
        rewrite Hin, elem_of_cons. intros [_ H]. apply H. now left.
      * intros r0. rewrite !elem_of_cons, Hin, elem_of_cons.
        destruct (decide (r0 = r)) as [->|Hne].
        -- split; [intros _; split; [now left | exact D] | now left].
        -- split.
           ++ intros [E|[H1 H2]]; [destruct (Hne E)|].
              split; [now right | intros H3; apply H2; now right].
           ++ intros [[E|H1] H2]; [destruct (Hne E)|]. right.
              split; [assumption|].
              intros [E|H3]; [destruct (Hne E) | destruct (H2 H3)].
Qed.



(** The square [parse_geometry] builds from one decoded reference. *)
Definition tile_square (t : Z * Z * Z) : bbox :=
  let '(x, y, resolution) := t in
  Box (inject_Z x) (inject_Z y)
    (inject_Z x + inject_Z resolution / 2)%Q
    (inject_Z y + inject_Z resolution / 2)%Q.

Lemma decode_all_Ok (df : list row) :
  Forall (fun r => exists v,
            to_osgb36 unicode_upper unicode_decimal (tile_id r) = Ok v) df ->
  exists vs,
    decode_all (List.map tile_id df) = Ok vs
    /\ length vs = length df
    /\ forall i r v,
         df !! i = Some r ->
         to_osgb36 unicode_upper unicode_decimal (tile_id r) = Ok v ->
         vs !! i = Some v.
Proof using Type.
  induction 1 as [|r df [v Hv] _ (vs & E & L & Hvs)].
  - exists []. repeat split. intros i r v Hi. discriminate Hi.
  - exists (v :: vs). cbn [List.map decode_all]. rewrite Hv, E.
    repeat split; [cbn; congruence|].
    intros [|i] r' v'; cbn.
    + intros [= <-]. congruence.
    + apply Hvs.
Qed.

Lemma geometry_of_decoded (decoded : list (Z * Z * Z)) :
  let x := List.map (fun t => inject_Z t.1.1) decoded in
  let y := List.map (fun t => inject_Z t.1.2) decoded in
  let resolution :=
    List.map (fun r => (r / 2)%Q) (List.map (fun t => inject_Z t.2) decoded) in
  List.map mk_box
    (zip4 x y (zip_with Qplus x resolution) (zip_with Qplus y resolution))
  = List.map tile_square decoded.
Proof using Type.
  cbv zeta. induction decoded as [|[[x y] r] decoded IH]; [reflexivity|].
  cbn [List.map zip_with zip4 mk_box tile_square fst snd]. now rewrite IH.
Qed.

(** C7.  When every row's tile reference decodes ([parse_geometry]
    then returns), the frame is in EPSG:27700, has the rows of [df] in
    order, and the geometry of a row whose reference decodes to
    [(x, y, resolution)] is the box from [(x, y)] to
    [(x + resolution / 2, y + resolution / 2)]: a square of side half
    the decoded resolution. *)
Theorem parse_geometry_half_resolution (df : list row) :
  df <> [] ->
  Forall (fun r => exists v,
            to_osgb36 unicode_upper unicode_decimal (tile_id r) = Ok v) df ->
  exists index,
    parse_geometry df = Ok index
    /\ frame_crs index = "EPSG:27700"%string
    /\ List.map fst (frame_rows index) = df
    /\ forall i r x y resolution,
         df !! i = Some r ->
         to_osgb36 unicode_upper unicode_decimal (tile_id r)
         = Ok (x, y, resolution) ->
         exists g,
           frame_rows index !! i = Some (r, g)
           /\ g = Box (inject_Z x) (inject_Z y)
                    (inject_Z x + inject_Z resolution / 2)%Q
                    (inject_Z y + inject_Z resolution / 2)%Q
           /\ (xmax g - xmin g == inject_Z resolution / 2)%Q
           /\ (ymax g - ymin g == inject_Z resolution / 2)%Q.
Proof using Type.
  intros Hne Hall.
  destruct (decode_all_Ok df Hall) as (vs & E & L & Hvs).
  unfold parse_geometry. rewrite E.
  destruct vs as [|v vs].
  { destruct df; [now destruct Hne | discriminate L]. }
  cbv zeta. rewrite (geometry_of_decoded (v :: vs)).
  eexists. split; [reflexivity|]. cbn [frame_crs frame_rows].
  split; [reflexivity|]. split.
  { change (List.map fst ?l) with (fst <$> l). apply fst_zip.
    rewrite length_map. lia. }
  intros i r x y resolution Hi Hd.
  exists (tile_square (x, y, resolution)).
  split; [|split; [reflexivity|]].
  - apply lookup_zip_with_Some. exists r, (tile_square (x, y, resolution)).
    split; [reflexivity|]. split; [exact Hi|].
    change (List.map ?f ?l) with (f <$> l).
    now rewrite list_lookup_fmap, (Hvs i r _ Hi Hd).
  - cbn [tile_square xmin xmax ymin ymax]. split; ring.
Qed.

End Harvest.

(** ** Closed instances *)










(** C7 at the single row ["NT2755072950"]: the square from
    (327550, 672950) of side 10 / 2 = 5. *)
Lemma parse_geometry_half_resolution_witness :
  let df := [cps "NT2755072950"] in
  let decode := to_osgb36 ascii_only_upper ascii_only_decimal in
  exists index,
    parse_geometry (list N) PyStr ascii_only_upper ascii_only_decimal df
    = Ok index
    /\ frame_crs index = "EPSG:27700"%string
    /\ List.map fst (frame_rows index) = df
    /\ forall i r x y resolution,
         df !! i = Some r ->
         decode (PyStr r) = Ok (x, y, resolution) ->
         exists g,
           frame_rows index !! i = Some (r, g)
           /\ g = Box (inject_Z x) (inject_Z y)
                    (inject_Z x + inject_Z resolution / 2)%Q
                    (inject_Z y + inject_Z resolution / 2)%Q
           /\ (xmax g - xmin g == inject_Z resolution / 2)%Q
           /\ (ymax g - ymin g == inject_Z resolution / 2)%Q.
Proof.
  cbv zeta.
  apply (parse_geometry_half_resolution (list N) PyStr
           ascii_only_upper ascii_only_decimal [cps "NT2755072950"]).
  - discriminate.
  - constructor; [|constructor].
    exists (327550, 672950, 10)%Z. vm_compute. reflexivity.
Defined.

(** ** More on [tile_gdf] *)





Section TilingBounds.

Variable GeoDataFrame : Type.
Variable geometry : Type.
Variable to_crs : GeoDataFrame -> Z -> GeoDataFrame.
Variable total_bounds : GeoDataFrame -> Q * Q * Q * Q.
Variable make_valid : GeoDataFrame -> GeoDataFrame.
Variable buffer0 : GeoDataFrame -> GeoDataFrame.
Variable union_all : GeoDataFrame -> geometry.
Variable intersects : bbox -> geometry -> bool.

Local Abbreviation tile :=
  (tile_gdf GeoDataFrame geometry to_crs total_bounds make_valid buffer0
     union_all intersects).




End TilingBounds.

(** ** More on the post-processing *)

Section HarvestOutcomes.

Variable row : Type.
Context `{EqDecision row}.
Variable tile_id : row -> pyobj.
Variable unicode_upper : N -> list N.
Variable unicode_decimal : N -> option Z.

Local Abbreviation decode := (to_osgb36 unicode_upper unicode_decimal).
Local Abbreviation decode_tiles := (decode_all unicode_upper unicode_decimal).
Local Abbreviation geometries :=
  (parse_geometry row tile_id unicode_upper unicode_decimal).
Local Abbreviation deduplicated :=
  (fun df => select row df (List.map negb (duplicated row df))).
Local Abbreviation run := (main row tile_id unicode_upper unicode_decimal).

(** The square of a row, when its reference decodes. *)
Definition row_square (r : row) : option bbox :=
  match decode (tile_id r) with
  | Ok v => Some (tile_square v)
  | Raise _ => None
  end.

Lemma decode_all_Raise (tiles : list pyobj) (e : BNGError) :
  decode_tiles tiles = Raise e <->
  exists before t after,
    tiles = before ++ t :: after
    /\ Forall (fun t0 => exists v, decode t0 = Ok v) before
    /\ decode t = Raise e.
Proof using Type.
  induction tiles as [|t tiles IH]; cbn [decode_all].
  - split; [discriminate|]. intros (before & t & after & E & _).
    now destruct before.
  - destruct (decode t) as [v|e0] eqn:D.
    + destruct (decode_all _ _ tiles) as [vs|e1] eqn:A.
      * split; [discriminate|].
        intros ([|t0 before] & t1 & after & E & Hb & Ht);
          injection E as -> ->; [congruence|].
        apply Forall_cons in Hb as [_ Hb].
        assert (R : (Raise e : result BNGError (list (Z * Z * Z)))
                    = Raise e) by reflexivity.
        enough (Ok vs = (Raise e : result BNGError (list (Z * Z * Z))))
          by discriminate.
        apply IH. now exists before, t1, after.
      * split.
        -- intros [= <-]. destruct (proj1 IH eq_refl)
             as (before & t1 & after & -> & Hb & Ht).
           exists (t :: before), t1, after.
           repeat split; [constructor; eauto | assumption].
        -- intros ([|t0 before] & t1 & after & E & Hb & Ht);
             injection E as -> ->; [congruence|].
           apply Forall_cons in Hb as [_ Hb].
           apply IH. now exists before, t1, after.
    + split.
      * intros [= <-]. exists [], t, tiles. repeat split; [constructor | assumption].
      * intros ([|t0 before] & t1 & after & E & Hb & Ht);
          injection E as -> ->; [congruence|].
        apply Forall_cons in Hb as [[v Hv] _]. congruence.
Qed.

Lemma decode_all_length (tiles : list pyobj) (vs : list (Z * Z * Z)) :
  decode_tiles tiles = Ok vs ->
  length vs = length tiles
  /\ Forall (fun t => exists v, decode t = Ok v) tiles.
Proof using Type.
  revert vs. induction tiles as [|t tiles IH]; intros vs; cbn [decode_all].
  - intros [= <-]. split; [reflexivity | constructor].
  - destruct (decode t) as [v|] eqn:D; [|discriminate].
    destruct (decode_all _ _ tiles) as [vs'|]; [|discriminate].
    intros [= <-]. destruct (IH vs' eq_refl) as [L F].
    split; [cbn; congruence | constructor; eauto].
Qed.

(** X8.  [parse_geometry] is all or nothing.  It raises [ValueError]
    exactly on the empty frame; it raises the [BNGError] of the first
    row whose tile reference does not decode, whatever comes after it;
    it returns a frame exactly when the frame is not empty and every
    reference decodes. *)
Theorem parse_geometry_outcomes (df : list row) :
  (parse_geometry row tile_id unicode_upper unicode_decimal df
   = Raise ValueError <-> df = [])
  /\ (forall e,
        parse_geometry row tile_id unicode_upper unicode_decimal df
        = Raise (Decode e) <->
        exists before r after,
          df = before ++ r :: after
          /\ Forall (fun r0 => exists v, decode (tile_id r0) = Ok v) before
          /\ decode (tile_id r) = Raise e)
  /\ ((exists index,
         parse_geometry row tile_id unicode_upper unicode_decimal df
         = Ok index) <->
      df <> [] /\ Forall (fun r => exists v, decode (tile_id r) = Ok v) df).
Proof using Type.
  unfold parse_geometry.
  destruct (decode_all _ _ (List.map tile_id df)) as [vs|e0] eqn:A.
  - destruct (decode_all_length _ _ A) as [L F].
    rewrite length_map in L.
    assert (F' : Forall (fun r => exists v, decode (tile_id r) = Ok v) df).
    { exact (proj1 (List.Forall_map tile_id
                      (fun t => exists v, decode t = Ok v) df) F). }
    assert (NoRaise : forall e before r after,
              df = before ++ r :: after ->
              decode (tile_id r) = Raise e -> False).
    { intros e before r after -> Hr.
      apply Forall_app in F' as [_ F'].
      apply Forall_cons in F' as [[v Hv] _]. congruence. }
    destruct vs as [|v vs].
    + assert (df = []) by (now destruct df). subst df.
      split; [split; reflexivity|]. split.
      * intros e. split; [discriminate|].
        intros (before & r & after & E & _). now destruct before.
      * split; [intros [index Hi]; discriminate Hi | intros [Hne _]; now destruct Hne].
    + assert (Hne : df <> []) by (intros ->; discriminate L).
      split; [split; [discriminate | intros ->; now destruct Hne]|]. split.
      * intros e. split; [discriminate|].
        intros (before & r & after & E & _ & Hr). destruct (NoRaise _ _ _ _ E Hr).
      * split; [auto | eauto].
  - apply decode_all_Raise in A as (before & t & after & E & Hb & Ht).
    change (List.map tile_id df) with (tile_id <$> df) in E.
    apply fmap_app_inv in E as (dfb & dfa & -> & E & ->).
    symmetry in E. apply fmap_cons_inv in E as (r & dfa' & -> & -> & ->).
    change (tile_id <$> dfb) with (List.map tile_id dfb) in Hb.
    pose proof (proj1 (List.Forall_map tile_id
                         (fun t => exists v, decode t = Ok v) dfb) Hb)
      as Hb'.
    clear Hb. rename Hb' into Hb. cbv beta in Hb.
    split; [split; [discriminate | intros E; now destruct dfb]|]. split.
    + intros e. split.
      * intros [= <-]. exists dfb, r, dfa'. auto.
      * intros (before & r' & after & E & Hbefore & Hr').
        enough (e0 = e) by congruence.
        (* the first failing row is determined *)
        revert before E Hbefore. clear -Hb Ht Hr'.
        induction dfb as [|b0 dfb IH]; intros [|b1 before] E Hbefore.
        -- injection E as -> _. congruence.
        -- injection E as -> _.
           apply Forall_cons in Hbefore as [[v Hv] _]. congruence.
        -- injection E as -> _.
           apply Forall_cons in Hb as [[v Hv] _]. congruence.
        -- injection E as -> E.
           apply Forall_cons in Hb as [_ Hb].
           apply Forall_cons in Hbefore as [_ Hbefore].
           eapply IH; eassumption.
    + split; [intros [index Hi]; discriminate Hi|].
      intros [_ F]. apply Forall_app in F as [_ F].
      apply Forall_cons in F as [[v Hv] _]. congruence.
Qed.

(** A row with its square. *)
Definition with_square (r : row) : option (row * bbox) :=
  (fun g => (r, g)) <$> row_square r.

Lemma decode_all_rows (df : list row) (vs : list (Z * Z * Z)) :
  decode_tiles (List.map tile_id df) = Ok vs ->
  zip df (List.map tile_square vs) = omap with_square df.
Proof using Type.
  revert vs. induction df as [|r df IH]; intros vs;
    cbn [List.map decode_all].
  - now intros [= <-].
  - destruct (decode (tile_id r)) as [v|] eqn:D; [|discriminate].
    destruct (decode_all _ _ (List.map tile_id df)) as [vs'|] eqn:A;
      [|discriminate].
    intros [= <-]. cbn [List.map zip zip_with omap list_omap].
    unfold with_square at 1, row_square at 1. rewrite D.
    cbn [fmap option_fmap option_map]. f_equal. now apply IH.
Qed.

Lemma parse_geometry_Ok (df : list row) (index : GeoFrame row) :
  geometries df = Ok index ->
  df <> []
  /\ Forall (fun r => exists v, decode (tile_id r) = Ok v) df
  /\ frame_rows index = omap with_square df
  /\ frame_crs index = "EPSG:27700"%string.
Proof using Type.
  unfold parse_geometry.
  destruct (decode_all _ _ (List.map tile_id df)) as [vs|] eqn:A;
    [|discriminate].
  destruct (decode_all_length _ _ A) as [L F]. rewrite length_map in L.
  pose proof (proj1 (List.Forall_map tile_id
                       (fun t => exists v, decode t = Ok v) df) F) as F'.
  destruct vs as [|v vs]; [discriminate|].
  cbv zeta. rewrite (geometry_of_decoded (v :: vs)).
  intros [= <-]. cbn [frame_rows frame_crs].
  repeat split; try assumption.
  - intros ->. discriminate L.
  - exact (decode_all_rows df (v :: vs) A).
Qed.

Lemma parse_geometry_returns (df : list row) :
  df <> [] ->
  Forall (fun r => exists v, decode (tile_id r) = Ok v) df ->
  exists index, geometries df = Ok index.
Proof using Type.
  intros Hne Hall.
  destruct (decode_all_Ok row tile_id unicode_upper unicode_decimal df Hall)
    as (vs & E & L & _).
  unfold parse_geometry. rewrite E.
  destruct vs as [|v vs]; [|eauto].
  destruct df; [now destruct Hne | discriminate L].
Qed.

(** X9.  The index does not depend on the order in which the rows
    arrived: for two frames that hold the same rows in different
    orders, [main] fails on both or returns on both, and then the two
    indexes hold the same rows with the same squares, up to order. *)
Theorem main_order_independent (df1 df2 : list row) :
  Permutation df1 df2 ->
  match main row tile_id unicode_upper unicode_decimal df1,
        main row tile_id unicode_upper unicode_decimal df2 with
  | Ok index1, Ok index2 =>
      Permutation (frame_rows index1) (frame_rows index2)
      /\ frame_crs index1 = frame_crs index2
  | Raise _, Raise _ => True
  | _, _ => False
  end.
Proof using Type.
  intros Hp. unfold main, duplicated.
  destruct (select_duplicated_from row [] df1) as (Hnd1 & Hin1 & _).
  destruct (select_duplicated_from row [] df2) as (Hnd2 & Hin2 & _).
  cbv zeta in Hnd1, Hin1, Hnd2, Hin2 |- *.
  set (k1 := select row df1 _) in *. set (k2 := select row df2 _) in *.
  assert (Hk : k1 ≡ₚ k2).
  { apply NoDup_Permutation; try assumption.
    intros r. rewrite Hin1, Hin2. now rewrite Hp. }
  assert (Transfer : forall a b index,
            a ≡ₚ b -> geometries a = Ok index ->
            exists index', geometries b = Ok index'
              /\ frame_rows index ≡ₚ frame_rows index'
              /\ frame_crs index = frame_crs index').
  { intros a b index Hab Ha.
    apply parse_geometry_Ok in Ha as (Hne & Hall & Hrows & Hcrs).
    destruct (parse_geometry_returns b) as [index' Hb].
    - intros ->. apply Permutation_nil_r in Hab. now destruct Hne.
    - now rewrite <- Hab.
    - exists index'. split; [exact Hb|].
      apply parse_geometry_Ok in Hb as (_ & _ & Hrows' & Hcrs').
      split; [|congruence]. rewrite Hrows, Hrows'. now rewrite Hab. }
  destruct (geometries k1) as [i1|e1] eqn:G1.
  - destruct (Transfer k1 k2 i1 Hk G1) as (i2 & -> & Hr & Hc). auto.
  - destruct (geometries k2) as [i2|e2] eqn:G2; [|exact I].
    destruct (Transfer k2 k1 i2 (symmetry Hk) G2) as (i1 & G1' & _).
    congruence.
Qed.

Lemma select_all_seen (seen extra : list row) :
  (forall r, r ∈ extra -> r ∈ seen) ->
  select row extra (List.map negb (duplicated_from row seen extra)) = [].
Proof using Type.
  revert seen. induction extra as [|r extra IH]; intros seen Hall;
    [reflexivity|].
  unfold select in *. cbn [duplicated_from List.map zip zip_with List.filter].
  rewrite bool_decide_eq_true_2 by (apply Hall; left).
  cbn [negb snd]. apply IH. intros r0 Hr0. right. apply Hall. now right.
Qed.

Lemma select_app_seen (seen df extra : list row) :
  (forall r, r ∈ extra -> r ∈ df \/ r ∈ seen) ->
  select row (df ++ extra)
    (List.map negb (duplicated_from row seen (df ++ extra)))
  = select row df (List.map negb (duplicated_from row seen df)).
Proof using Type.
  revert seen. induction df as [|r df IH]; intros seen Hall.
  - cbn [app]. rewrite select_all_seen; [reflexivity|].
    intros r Hr. destruct (Hall r Hr) as [H|H]; [inversion H | exact H].
  - unfold select in *.
    cbn [app duplicated_from List.map zip zip_with List.filter].
    assert (Hrec : forall r0, r0 ∈ extra -> r0 ∈ df \/ r0 ∈ r :: seen).
    { intros r0 Hr0. destruct (Hall r0 Hr0) as [H|H].
      - apply elem_of_cons in H as [-> | H]; [right; left | now left].
      - right. now right. }
    destruct (negb (bool_decide (r ∈ seen))); cbn [snd List.map fst];
      now rewrite (IH (r :: seen) Hrec).
Qed.

Lemma select_NoDup (seen df : list row) :
  NoDup df -> (forall r, r ∈ df -> r ∉ seen) ->
  select row df (List.map negb (duplicated_from row seen df)) = df.
Proof using Type.
  revert seen. induction df as [|r df IH]; intros seen Hnd Hfresh;
    [reflexivity|].
  apply NoDup_cons in Hnd as [Hr Hnd].
  unfold select in *. cbn [duplicated_from List.map zip zip_with List.filter].
  rewrite bool_decide_eq_false_2 by (apply Hfresh; left).
  cbn [negb snd List.map fst]. f_equal. apply IH; [assumption|].
  intros r0 Hr0 [-> | Hs]%elem_of_cons; [now destruct Hr|].
  apply (Hfresh r0); [now right | assumption].
Qed.

(** X10.  Rows that repeat rows already in the frame change nothing:
    appending them leaves the de-duplicated frame, and so the result of
    [main], as it was; and de-duplicating twice is de-duplicating
    once. *)
Theorem main_ignores_repeats (df extra : list row) :
  (forall r, In r extra -> In r df) ->
  deduplicated (df ++ extra) = deduplicated df
  /\ main row tile_id unicode_upper unicode_decimal (df ++ extra)
     = main row tile_id unicode_upper unicode_decimal df
  /\ deduplicated (deduplicated df) = deduplicated df
  /\ main row tile_id unicode_upper unicode_decimal (deduplicated df)
     = main row tile_id unicode_upper unicode_decimal df.
Proof using Type.
  intros Hall.
  assert (E1 : deduplicated (df ++ extra) = deduplicated df).
  { unfold duplicated. apply select_app_seen.
    intros r Hr. left. apply list_elem_of_In, Hall, list_elem_of_In, Hr. }
  assert (E2 : deduplicated (deduplicated df) = deduplicated df).
  { destruct (select_duplicated_from row [] df) as (Hnd & _ & _).
    unfold duplicated. apply select_NoDup; [exact Hnd|].
    intros r _ Hr. inversion Hr. }
  repeat split; try assumption; unfold main; cbv zeta; congruence.
Qed.

End HarvestOutcomes.

(** ** Closed instances, continued *)




(** X9 on two rows in both orders. *)
Lemma main_order_independent_witness :
  let run := main (list N) PyStr ascii_only_upper ascii_only_decimal in
  match run [cps "NT1234"; cps "NT2755072950"],
        run [cps "NT2755072950"; cps "NT1234"] with
  | Ok index1, Ok index2 =>
      Permutation (frame_rows index1) (frame_rows index2)
      /\ frame_crs index1 = frame_crs index2
  | Raise _, Raise _ => True
  | _, _ => False
  end.
Proof.
  cbv zeta.
  apply (main_order_independent (list N) PyStr ascii_only_upper
           ascii_only_decimal).
  apply perm_swap.
Defined.

(** X10 on a row harvested twice. *)
Lemma main_ignores_repeats_witness :
  let df := [cps "NT1234"; cps "NT2755072950"] in
  let extra := [cps "NT1234"] in
  let deduplicated := fun df : list (list N) =>
    select (list N) df (List.map negb (duplicated (list N) df)) in
  let run := main (list N) PyStr ascii_only_upper ascii_only_decimal in
  deduplicated (df ++ extra) = deduplicated df
  /\ run (df ++ extra) = run df
  /\ deduplicated (deduplicated df) = deduplicated df
  /\ run (deduplicated df) = run df.
Proof.
  cbv zeta.
  apply (main_ignores_repeats (list N) PyStr ascii_only_upper
           ascii_only_decimal [cps "NT1234"; cps "NT2755072950"]
           [cps "NT1234"]).
  intros r [<- | []]. now left.
Defined.

(** ** Request bodies and the harvest loop *)

(** JSON values, Python's [dict] as a finite map. *)
#[local] Set Warnings "-register-all".
Inductive json : Type :=
  | JNull
  | JBool (b : bool)
  | JNum (q : Q)
  | JStr (s : string)
  | JList (l : list json)
  | JDict (d : gmap string json).
#[local] Set Warnings "register-all".

(** What [ingest_data] and the functions it calls can raise: [KeyError]
    and [TypeError] of a subscript, aiohttp's [ClientResponseError] of
    [raise_for_status], the [ValueError] of [pd.concat] on no frame, and
    whatever a library call raises besides. *)
Inductive ingest_error : Type :=
  | KeyError (key : string)
  | SubscriptTypeError
  | ClientResponseError (status : Z)
  | NoObjectsToConcatenate
  | LibraryError (what : string).

(** [obj[key]] for a string key: only a [dict] takes one. *)
Definition getitem (obj : json) (key : string) : result ingest_error json :=
  match obj with
  | JDict d =>
      match d !! key with
      | Some v => Ok v
      | None => Raise (KeyError key)
      end
  | _ => Raise SubscriptTypeError
  end.

(** [feature_to_request_body]; the subscripts are evaluated in the
    order written. *)
Definition feature_to_request_body (feature : json)
  : result ingest_error json :=
  match getitem feature "geometry" with
  | Raise e => Raise e
  | Ok geometry =>
      match getitem geometry "type" with
      | Raise e => Raise e
      | Ok type =>
          match getitem feature "geometry" with
          | Raise e => Raise e
          | Ok geometry' =>
              match getitem geometry' "coordinates" with
              | Raise e => Raise e
              | Ok coordinates =>
                  Ok (JDict (<["type"%string := type]>
                               (<["coordinates"%string := coordinates]> ∅)))
              end
          end
      end
  end.

(** A comprehension or loop over calls that may raise: the first
    failure escapes. *)
Fixpoint collect {A B : Type} (f : A -> result ingest_error B)
    (l : list A) : result ingest_error (list B) :=
  match l with
  | [] => Ok []
  | a :: l' =>
      match f a with
      | Raise e => Raise e
      | Ok b =>
          match collect f l' with
          | Raise e => Raise e
          | Ok bs => Ok (b :: bs)
          end
      end
  end.

(** One reply of the catalog: its status and what [response.json()]
    gives. *)
Record reply : Type :=
  { status : Z; json_body : result ingest_error json }.

Section Ingest.

(** geopandas: reprojection, and the ["features"] list of a frame's
    [__geo_interface__]. *)
Variable GeoDataFrame : Type.
Variable to_crs : GeoDataFrame -> Z -> GeoDataFrame.
Variable features : GeoDataFrame -> list json.

(** The catalog behind [session.post(url, json=feature, ...)]. *)
Variable post : json -> result ingest_error reply.

(** pandas: [pd.DataFrame.from_dict] and [pd.concat(..., ignore_index=True)]
    on at least one frame; and [parse_response], left uninterpreted. *)
Variable DataFrame : Type.
Variable from_dict : json -> result ingest_error DataFrame.
Variable concat_frames : list DataFrame -> DataFrame.
Variable parse_response : DataFrame -> result ingest_error DataFrame.

(** The order in which [asyncio.as_completed] hands the requests
    back: some rearrangement of the tasks. *)
Variable completed : list json -> list json.

Definition construct_request_bodies (gdf : GeoDataFrame)
  : result ingest_error (list json) :=
  let crs := 4326%Z in
  let gdf := to_crs gdf crs in
  collect feature_to_request_body (features gdf).

Definition request_tile (feature : json) : result ingest_error DataFrame :=
  match post feature with
  | Raise e => Raise e
  | Ok response =>
      if (400 <=? status response)%Z
      then Raise (ClientResponseError (status response))
      else
        match json_body response with
        | Raise e => Raise e
        | Ok response_json =>
            match getitem response_json "results" with
            | Raise e => Raise e
            | Ok results => from_dict results
            end
        end
  end.

Definition ingest_data (tile_gdf : GeoDataFrame)
  : result ingest_error DataFrame :=
  match construct_request_bodies tile_gdf with
  | Raise e => Raise e
  | Ok request_bodies =>
      match collect request_tile (completed request_bodies) with
      | Raise e => Raise e
      | Ok [] => Raise NoObjectsToConcatenate
      | Ok response_dfs => parse_response (concat_frames response_dfs)
      end
  end.

End Ingest.

(** ** Facts about the request bodies and the loop *)

Lemma collect_Ok {A B : Type} (f : A -> result ingest_error B)
    (l : list A) (bs : list B) :
  collect f l = Ok bs <-> Forall2 (fun a b => f a = Ok b) l bs.
Proof.
  revert bs. induction l as [|a l IH]; intros bs; cbn [collect].
  - split; [intros [= <-]; constructor | intros H; now inversion H].
  - destruct (f a) as [b|e] eqn:Fa.
    + destruct (collect f l) as [bs'|e] eqn:C.
      * split.
        -- intros [= <-]. constructor; [assumption | now apply IH].
        -- intros H. inversion H as [|? b0 ? bs0 Hb Hbs]; subst.
           apply IH in Hbs. congruence.
      * split; [discriminate|].
        intros H. inversion H as [|? b0 ? bs0 Hb Hbs]; subst.
        apply IH in Hbs. discriminate Hbs.
    + split; [discriminate|].
      intros H. inversion H; subst. congruence.
Qed.

Lemma collect_Raise {A B : Type} (f : A -> result ingest_error B)
    (l : list A) (e : ingest_error) :
  collect f l = Raise e <->
  exists before a after,
    l = before ++ a :: after
    /\ Forall (fun a0 => exists b, f a0 = Ok b) before
    /\ f a = Raise e.
Proof.
  induction l as [|a l IH]; cbn [collect].
  - split; [discriminate|].
    intros (before & a & after & E & _). now destruct before.
  - destruct (f a) as [b|e0] eqn:Fa.
    + destruct (collect f l) as [bs'|e1] eqn:C.
      * split; [discriminate|].
        intros ([|a0 before] & a1 & after & E & Hb & Ha);
          injection E as -> ->; [congruence|].
        apply Forall_cons in Hb as [_ Hb].
        assert (H : (Ok bs' : result ingest_error (list B)) = Raise e)
          by (apply IH; now exists before, a1, after).
        discriminate H.
      * split.
        -- intros [= <-].
           destruct (proj1 IH eq_refl) as (before & a1 & after & -> & Hb & Ha).
           exists (a :: before), a1, after.
           repeat split; [constructor; eauto | assumption].
        -- intros ([|a0 before] & a1 & after & E & Hb & Ha);
             injection E as -> ->; [congruence|].
           apply Forall_cons in Hb as [_ Hb].
           apply IH. now exists before, a1, after.
    + split.
      * intros [= <-]. exists [], a, l.
        repeat split; [constructor | assumption].
      * intros ([|a0 before] & a1 & after & E & Hb & Ha);
          injection E as -> ->; [congruence|].
        apply Forall_cons in Hb as [[b Hb0] _]. congruence.
Qed.

Lemma collect_Ok_In {A B : Type} (f : A -> result ingest_error B)
    (l : list A) (bs : list B) (a : A) :
  collect f l = Ok bs -> In a l -> exists b, f a = Ok b.
Proof.
  revert bs. induction l as [|a0 l IH]; intros bs; cbn [collect].
  - intros _ [].
  - destruct (f a0) as [b|e] eqn:Fa; [|discriminate].
    destruct (collect f l) as [bs'|e] eqn:C; [|discriminate].
    intros _ [<- | Hin]; [eauto | exact (IH bs' eq_refl Hin)].
Qed.

Lemma collect_Raise_In {A B : Type} (f : A -> result ingest_error B)
    (l : list A) (a : A) (e : ingest_error) :
  In a l -> f a = Raise e -> exists e', collect f l = Raise e'.
Proof.
  intros Hin Ha.
  destruct (collect f l) as [bs|e'] eqn:C; [|eauto].
  destruct (collect_Ok_In f l bs a C Hin) as [b Hb]. congruence.
Qed.

(** X14.  [feature_to_request_body] returns a body exactly for a
    [dict] whose ["geometry"] is a [dict] with a ["type"] and
    ["coordinates"]; the body holds these two members and nothing else
    of the feature (no id, properties or bbox); a feature built around
    a returned body gives that body back; and nothing is raised but a
    [TypeError] of a subscript or a [KeyError] for one of the three
    keys. *)
Theorem feature_to_request_body_spec (feature : json) :
  (forall body,
      feature_to_request_body feature = Ok body <->
      exists f g type coordinates,
        feature = JDict f /\ f !! "geometry"%string = Some (JDict g)
        /\ g !! "type"%string = Some type
        /\ g !! "coordinates"%string = Some coordinates
        /\ body = JDict (<["type"%string := type]>
                           (<["coordinates"%string := coordinates]> ∅)))
  /\ (forall body,
        feature_to_request_body feature = Ok body ->
        (exists d, body = JDict d
           /\ forall key, is_Some (d !! key) <->
                          key = "type"%string \/ key = "coordinates"%string)
        /\ forall others,
             feature_to_request_body
               (JDict (<["geometry"%string := body]> others)) = Ok body)
  /\ (forall e,
        feature_to_request_body feature = Raise e ->
        e = SubscriptTypeError \/ e = KeyError "geometry"
        \/ e = KeyError "type" \/ e = KeyError "coordinates").
Proof.
  assert (Char : forall body,
      feature_to_request_body feature = Ok body <->
      exists f g type coordinates,
        feature = JDict f /\ f !! "geometry"%string = Some (JDict g)
        /\ g !! "type"%string = Some type
        /\ g !! "coordinates"%string = Some coordinates
        /\ body = JDict (<["type"%string := type]>
                           (<["coordinates"%string := coordinates]> ∅))).
  { intros body. unfold feature_to_request_body, getitem. split.
    - destruct feature as [| | | | |f]; try discriminate.
      destruct (f !! "geometry"%string) as [geometry|] eqn:G;
        [|discriminate].
      destruct geometry as [| | | | |g]; try discriminate.
      destruct (g !! "type"%string) as [type|] eqn:T; [|discriminate].
      destruct (g !! "coordinates"%string) as [coordinates|] eqn:C;
        [|discriminate].
      intros [= <-]. now exists f, g, type, coordinates.
    - intros (f & g & type & coordinates & -> & G & T & C & ->).
      now rewrite G, T, C. }
  split; [exact Char|]. split.
  - intros body (f & g & type & coordinates & -> & G & T & C & ->)%Char.
    split.
    + eexists. split; [reflexivity|]. intros key.
      destruct (decide (key = "type"%string)) as [-> | Ht].
      * rewrite lookup_insert_eq. split; [auto | eauto].
      * rewrite lookup_insert_ne by congruence.
        destruct (decide (key = "coordinates"%string)) as [-> | Hc].
        -- rewrite lookup_insert_eq. split; [auto | eauto].
        -- rewrite lookup_insert_ne, lookup_empty by congruence.
           split; [intros [x Hx]; discriminate Hx
                  | intros [H | H]; congruence].
    + intros others. unfold feature_to_request_body, getitem.
      rewrite !lookup_insert_eq.
      rewrite lookup_insert_ne by discriminate.
      now rewrite lookup_insert_eq.
  - intros e. unfold feature_to_request_body, getitem.
    destruct feature as [| | | | |f]; try (intros [= <-]; auto).
    destruct (f !! "geometry"%string) as [geometry|];
      [|intros [= <-]; auto].
    destruct geometry as [| | | | |g]; try (intros [= <-]; auto).
    destruct (g !! "type"%string) as [type|]; [|intros [= <-]; auto].
    destruct (g !! "coordinates"%string) as [coordinates|];
      [discriminate | intros [= <-]; auto].
Qed.

Section IngestFacts.

Variable GeoDataFrame : Type.
Variable to_crs : GeoDataFrame -> Z -> GeoDataFrame.
Variable features : GeoDataFrame -> list json.
Variable post : json -> result ingest_error reply.
Variable DataFrame : Type.
Variable from_dict : json -> result ingest_error DataFrame.
Variable concat_frames : list DataFrame -> DataFrame.
Variable parse_response : DataFrame -> result ingest_error DataFrame.
Variable completed : list json -> list json.

Local Abbreviation bodies_of :=
  (construct_request_bodies GeoDataFrame to_crs features).
Local Abbreviation request :=
  (request_tile post DataFrame from_dict).
Local Abbreviation ingest :=
  (ingest_data GeoDataFrame to_crs features post DataFrame from_dict
     concat_frames parse_response completed).

(** X15.  [construct_request_bodies] reads the features of the frame
    reprojected to EPSG:4326 and is all or nothing: it returns one
    body per feature, in the order of the features, exactly when every
    feature yields a body; otherwise it raises what the first feature
    without a body raises. *)
Theorem construct_request_bodies_spec (gdf : GeoDataFrame) :
  (forall bodies,
      bodies_of gdf = Ok bodies <->
      Forall2 (fun feature body => feature_to_request_body feature = Ok body)
        (features (to_crs gdf 4326)) bodies)
  /\ (forall bodies,
        bodies_of gdf = Ok bodies ->
        length bodies = length (features (to_crs gdf 4326)))
  /\ (forall e,
        bodies_of gdf = Raise e <->
        exists before feature after,
          features (to_crs gdf 4326) = before ++ feature :: after
          /\ Forall (fun f0 => exists b, feature_to_request_body f0 = Ok b)
               before
          /\ feature_to_request_body feature = Raise e).
Proof.
  unfold construct_request_bodies. cbv zeta. split; [|split].
  - intros bodies. apply collect_Ok.
  - intros bodies Hb. apply collect_Ok in Hb.
    symmetry. eapply Forall2_length. exact Hb.
  - intros e. apply collect_Raise.
Qed.

(** What a request that returns a frame went through. *)
Lemma request_tile_Ok (body : json) (df : DataFrame) :
  request body = Ok df ->
  exists response response_json results,
    post body = Ok response /\ (status response < 400)%Z
    /\ json_body response = Ok response_json
    /\ getitem response_json "results" = Ok results
    /\ from_dict results = Ok df.
Proof.
  unfold request_tile.
  destruct (post body) as [response|]; [|discriminate].
  destruct (400 <=? status response)%Z eqn:S; [discriminate|].
  destruct (json_body response) as [response_json|] eqn:J; [|discriminate].
  destruct (getitem response_json "results") as [results|] eqn:R;
    [|discriminate].
  intros Hd. exists response, response_json, results.
  apply Z.leb_gt in S.
  split; [reflexivity|]. split; [exact S|].
  split; [exact J|]. split; [exact R | exact Hd].
Qed.

Hypothesis completed_permutation : forall l, Permutation l (completed l).

(** X16.  The harvest is all or nothing, whatever order the replies
    complete in.  [ingest_data] returns a frame only if there is at
    least one request body and every body was answered with a status
    below 400 and a JSON [dict] with a ["results"] member that pandas
    accepts; one reply with a status of 400 or more makes the whole
    call raise; and with no request body at all it raises the
    [ValueError] of [pd.concat]. *)
Theorem ingest_data_all_or_nothing (tile_gdf : GeoDataFrame) :
  (forall frame,
      ingest tile_gdf = Ok frame ->
      exists bodies,
        bodies_of tile_gdf = Ok bodies /\ bodies <> []
        /\ forall body, In body bodies ->
             exists response response_json results df,
               post body = Ok response /\ (status response < 400)%Z
               /\ json_body response = Ok response_json
               /\ getitem response_json "results" = Ok results
               /\ from_dict results = Ok df)
  /\ (forall bodies body response,
        bodies_of tile_gdf = Ok bodies -> In body bodies ->
        post body = Ok response -> (400 <= status response)%Z ->
        exists e, ingest tile_gdf = Raise e)
  /\ (bodies_of tile_gdf = Ok [] ->
      ingest tile_gdf = Raise NoObjectsToConcatenate).
Proof using completed_permutation.
  split; [|split].
  - intros frame. unfold ingest_data.
    destruct (bodies_of tile_gdf) as [bodies|] eqn:B; [|discriminate].
    destruct (collect request (completed bodies)) as [dfs|] eqn:C;
      [|discriminate].
    destruct dfs as [|df0 dfs]; [discriminate|]. intros _.
    exists bodies. split; [reflexivity|]. split.
    + intros ->. pose proof (completed_permutation []) as P.
      apply Permutation_nil in P. rewrite P in C. discriminate C.
    + intros body Hin.
      assert (Hin' : In body (completed bodies))
        by exact (Permutation_in body (completed_permutation bodies) Hin).
      destruct (collect_Ok_In _ _ _ body C Hin') as [df Hdf].
      destruct (request_tile_Ok body df Hdf)
        as (response & response_json & results & H).
      now exists response, response_json, results, df.
  - intros bodies body response B Hin Hp Hs. unfold ingest_data.
    rewrite B.
    assert (Hr : request body = Raise (ClientResponseError (status response))).
    { unfold request_tile. rewrite Hp.
      destruct (400 <=? status response)%Z eqn:S; [reflexivity | lia]. }
    assert (Hin' : In body (completed bodies))
      by exact (Permutation_in body (completed_permutation bodies) Hin).
    destruct (collect_Raise_In request _ body _ Hin' Hr) as [e' He'].
    rewrite He'. eauto.
  - intros B. unfold ingest_data. rewrite B.
    pose proof (completed_permutation []) as P.
    apply Permutation_nil in P. rewrite P. reflexivity.
Qed.

End IngestFacts.

(** A catalog that answers every body with an empty result list but
    refuses a [Point], over frames given by their feature lists. *)
Definition geojson (type : string) : json :=
  JDict (<["geometry"%string :=
             JDict (<["type"%string := JStr type]>
                      (<["coordinates"%string := JList []]> ∅))]> ∅).

Definition catalog (body : json) : result ingest_error reply :=
  match getitem body "type" with
  | Ok (JStr "Point") =>
      Ok {| status := 422; json_body := Ok JNull |}
  | _ =>
      Ok {| status := 200;
            json_body := Ok (JDict (<["results"%string := JList []]> ∅)) |}
  end.

(** X16 on two polygons and a point, the replies completing in reverse
    order. *)
Lemma ingest_data_all_or_nothing_witness :
  let ingest :=
    ingest_data (list json) (fun gdf _ => gdf) (fun gdf => gdf) catalog
      json Ok JList Ok (@rev json) in
  (exists e, ingest [geojson "Polygon"; geojson "Point"; geojson "Polygon"]
             = Raise e)
  /\ ingest [] = Raise NoObjectsToConcatenate.
Proof.
  cbv zeta.
  destruct (ingest_data_all_or_nothing (list json) (fun gdf _ => gdf)
              (fun gdf => gdf) catalog json Ok JList Ok (@rev json)
              (@Permutation_rev json)
              [geojson "Polygon"; geojson "Point"; geojson "Polygon"])
    as (_ & Hfail & _).
  destruct (ingest_data_all_or_nothing (list json) (fun gdf _ => gdf)
              (fun gdf => gdf) catalog json Ok JList Ok (@rev json)
              (@Permutation_rev json) [])
    as (_ & _ & Hnone).
  split.
  - eapply Hfail with (body := JDict (<["type"%string := JStr "Point"]>
                                 (<["coordinates"%string := JList []]> ∅))).
    + reflexivity.
    + right. left. reflexivity.
    + reflexivity.
    + cbn. lia.
  - apply Hnone. reflexivity.
Defined.

End UpdateData.

(* ================================================================== *)
Module Api.

(** An array of a fixed shape is its indexing function.  [samples] is
    what [src.read([1, 2, 3], ..., out_shape=(3, 256, 256))] returns,
    [data[band][row][col]], in the raster's own number type. *)
Definition samples : Type := nat -> nat -> nat -> Q.

(** An RGBA image: [pixel row col = (r, g, b, a)]. *)
Record Image : Type :=
  { height : nat; width : nat; pixel : nat -> nat -> Z * Z * Z * Z }.

(** [fastapi.Response]; [content] stands for the PNG bytes, a lossless
    encoding of the image. *)
Record Response : Type :=
  { status_code : Z;
    media_type : string;
    headers : list (string * string);
    content : Image }.

(** [IndexError] of [list(...)[0]]; [Failure] is any [Exception] raised
    while the raster is opened and read. *)
Inductive exn : Type :=
  | IndexError
  | Failure (what : string).

Definition image_size : nat := 256.

(** The double-quote character. *)
Definition dq : string := String (ascii_of_nat 34) EmptyString.

(** [np.clip(v, 0, 255)] *)
Definition clip (v : Q) : Q :=
  if Qle_bool v 0 then 0%Q else if Qle_bool 255 v then 255%Q else v.

(** [.astype(np.uint8)]: towards zero, then modulo 256. *)
Definition astype_uint8 (v : Q) : Z :=
  ((if Qle_bool 0 v then Qfloor v else Qceiling v) mod 256)%Z.

(** [(data != 0).any(axis=0).astype(np.uint8) * 255] at one pixel. *)
Definition mask (data : nat -> nat -> nat -> Z) (i j : nat) : Z :=
  ((if negb (data 0%nat i j =? 0) || negb (data 1%nat i j =? 0)
       || negb (data 2%nat i j =? 0) then 1 else 0) * 255)%Z.

(** The body of the [with] block after the read, then
    [Image.fromarray(data.transpose(1, 2, 0), "RGBA")]. *)
Definition composite (data : samples) : Image :=
  let data := fun b i j => astype_uint8 (clip (data b i j)) in
  let mask := mask data in
  {| height := image_size; width := image_size;
     pixel := fun i j =>
       (data 0%nat i j, data 1%nat i j, data 2%nat i j, mask i j) |}.

(** [Image.fromarray(np.zeros((256, 256, 4), dtype=np.uint8), mode="RGBA")] *)
Definition blank : Image :=
  {| height := 256; width := 256; pixel := fun _ _ => (0, 0, 0, 0)%Z |}.

Section Serving.

(** The raster library: opening [tile_path] and reading the window of
    tile [(x, y, z)] resampled to 3 x 256 x 256, or the exception this
    raises. *)
Variable read_window : string -> Z -> Z -> Z -> result exn samples.

(** [get_tile]; [tifs] is [list(tile_dir.glob("*.tif"))].  [Raise]: the
    exception leaves the handler. *)
Definition get_tile (tifs : list string) (x y z : Z)
  : result exn Response :=
  match tifs with
  | [] => Raise IndexError
  | tile_path :: _ =>
      match read_window tile_path x y z with
      | Ok data =>
          Ok {| status_code := 200; media_type := "image/png";
                headers :=
                  [("Content-Disposition",
                    "inline; filename=" ++ dq ++ "test.png" ++ dq)]%string;
                content := composite data |}
      | Raise e =>
          Ok {| status_code := 200; media_type := "image/png";
                headers := []; content := blank |}
      end
  end.

(** ** Facts about the endpoint *)

Lemma clip_range (v : Q) : (0 <= clip v <= 255)%Q.
Proof.
  unfold clip. destruct (Qle_bool v 0) eqn:A; [lra|].
  destruct (Qle_bool 255 v) eqn:B; [lra|].
  assert (~ (v <= 0)%Q) by (rewrite <- Qle_bool_iff; congruence).
  assert (~ (255 <= v)%Q) by (rewrite <- Qle_bool_iff; congruence).
  lra.
Qed.


(** On values in range the cast is the integer part. *)
Lemma astype_uint8_clip_floor (v : Q) :
  astype_uint8 (clip v) = Qfloor (clip v).
Proof.
  unfold astype_uint8. destruct (clip_range v) as [Hlo Hhi].
  rewrite (proj2 (Qle_bool_iff 0 (clip v)) Hlo).
  apply Z.mod_small. split.
  - change 0%Z with (Qfloor 0). now apply Qfloor_resp_le.
  - apply Z.le_lt_trans with (Qfloor 255); [now apply Qfloor_resp_le|].
    reflexivity.
Qed.




End Serving.

(** ** Closed instances *)

(** A raster that reads the same three band values at every pixel. *)
Definition uniform_read (v0 v1 v2 : Q)
  : string -> Z -> Z -> Z -> result exn samples :=
  fun _ _ _ _ =>
    Ok (fun b _ _ => match b with 0%nat => v0 | 1%nat => v1 | _ => v2 end).


(** The same raster, evaluated: the half is cut to 0 by the cast, and
    the pixel is opaque because of its first band. *)
Example get_tile_uniform_pixel :
  (fun r => match r with
            | Ok resp => Some (pixel (content resp) 7 9)
            | Raise _ => None
            end)
    (get_tile (uniform_read 300 0 (1 # 2))%Q ["data/cogs/a.tif"%string] 1 2 3)
  = Some (255, 0, 0, 255)%Z.
Proof. vm_compute. reflexivity. Qed.

(** ** More on the endpoint *)



Lemma Qfloor_zero (q : Q) : Qfloor q = 0%Z <-> (0 <= q < 1)%Q.
Proof.
  pose proof (Qfloor_le q) as Hlo. pose proof (Qlt_floor q) as Hhi.
  split.
  - intros E. rewrite E in Hlo, Hhi. cbn in Hlo, Hhi. split; assumption.
  - intros [H0 H1].
    assert (A : (inject_Z (Qfloor q) < inject_Z 1)%Q)
      by (apply Qle_lt_trans with q; assumption).
    assert (B : (inject_Z 0 < inject_Z (Qfloor q + 1))%Q)
      by (apply Qle_lt_trans with q; assumption).
    rewrite <- Zlt_Qlt in A, B. lia.
Qed.

Lemma clip_cases (v : Q) :
  ((v <= 0)%Q /\ clip v = 0%Q)
  \/ ((255 <= v)%Q /\ clip v = 255%Q)
  \/ ((0 < v < 255)%Q /\ clip v = v).
Proof.
  unfold clip. destruct (Qle_bool v 0) eqn:A.
  - left. split; [now apply Qle_bool_iff | reflexivity].
  - assert (~ (v <= 0)%Q) by (rewrite <- Qle_bool_iff; congruence).
    destruct (Qle_bool 255 v) eqn:B.
    + right. left. split; [now apply Qle_bool_iff | reflexivity].
    + assert (~ (255 <= v)%Q) by (rewrite <- Qle_bool_iff; congruence).
      right. right. split; [lra | reflexivity].
Qed.

(** A channel is 0 exactly for a sample below 1. *)
Lemma astype_uint8_clip_zero (v : Q) :
  astype_uint8 (clip v) = 0%Z <-> (v < 1)%Q.
Proof.
  rewrite astype_uint8_clip_floor, Qfloor_zero.
  destruct (clip_cases v) as [[H ->] | [[H ->] | [H ->]]]; lra.
Qed.

(** X11.  What [np.clip(data, 0, 255).astype(np.uint8)] makes of one
    sample: 0 for a sample at or below 0, 255 at or above 255, the
    sample itself when it is an integer from 0 to 255, its integer part
    in between; a larger sample never gives a smaller channel. *)
Theorem clip_astype_uint8_value (v : Q) :
  ((v <= 0)%Q -> astype_uint8 (clip v) = 0%Z)
  /\ ((255 <= v)%Q -> astype_uint8 (clip v) = 255%Z)
  /\ (forall k : Z, (0 <= k <= 255)%Z -> (v == inject_Z k)%Q ->
                    astype_uint8 (clip v) = k)
  /\ ((0 <= v <= 255)%Q -> astype_uint8 (clip v) = Qfloor v)
  /\ (forall w : Q, (v <= w)%Q ->
                    (astype_uint8 (clip v) <= astype_uint8 (clip w))%Z).
Proof.
  rewrite astype_uint8_clip_floor.
  assert (In_range : (0 <= v <= 255)%Q -> Qfloor (clip v) = Qfloor v).
  { intros Hv.
    destruct (clip_cases v) as [[H ->] | [[H ->] | [H ->]]];
      try reflexivity; apply Qfloor_comp; lra. }
  split; [|split; [|split; [|split]]].
  - intros Hv. destruct (clip_cases v) as [[H ->] | [[H ->] | [H ->]]];
      [reflexivity | lra | lra].
  - intros Hv. destruct (clip_cases v) as [[H ->] | [[H ->] | [H ->]]];
      [lra | reflexivity | lra].
  - intros k Hk Hv.
    assert (Hr : (0 <= v <= 255)%Q).
    { rewrite Hv. change 0%Q with (inject_Z 0).
      change 255%Q with (inject_Z 255). rewrite <- !Zle_Qle. exact Hk. }
    rewrite (In_range Hr), (Qfloor_comp _ _ Hv). apply Qfloor_Z.
  - exact In_range.
  - intros w Hw. rewrite astype_uint8_clip_floor. apply Qfloor_resp_le.
    destruct (clip_cases v) as [[Hv ->] | [[Hv ->] | [Hv ->]]];
      destruct (clip_cases w) as [[Hw' ->] | [[Hw' ->] | [Hw' ->]]]; lra.
Qed.

Section ServingOutcomes.

Variable read_window : string -> Z -> Z -> Z -> result exn samples.

Local Abbreviation serve := (get_tile read_window).

(** X12.  When the read succeeds, a pixel of the answer is transparent
    exactly when all three samples are below 1 (zero, negative such as
    a no-data marker, or a fraction), and then it is (0, 0, 0, 0); when
    this holds at every pixel the answer shows the same pixels as the
    blank image returned for a failed read. *)
Theorem get_tile_transparent_pixels (tile_path : string)
    (rest : list string) (x y z : Z) (data : samples) :
  read_window tile_path x y z = Ok data ->
  exists resp,
    serve (tile_path :: rest) x y z = Ok resp
    /\ (forall i j,
          (pixel (content resp) i j).2 = 0%Z <->
          (data 0%nat i j < 1 /\ data 1%nat i j < 1 /\ data 2%nat i j < 1)%Q)
    /\ (forall i j,
          (pixel (content resp) i j).2 = 0%Z ->
          pixel (content resp) i j = (0, 0, 0, 0)%Z)
    /\ ((forall i j,
           (data 0%nat i j < 1 /\ data 1%nat i j < 1
            /\ data 2%nat i j < 1)%Q) ->
        forall i j, pixel (content resp) i j = pixel blank i j).
Proof using Type.
  intros H. unfold get_tile. rewrite H. eexists. split; [reflexivity|].
  cbn [content composite pixel].
  assert (Alpha : forall i j,
            mask (fun b i0 j0 => astype_uint8 (clip (data b i0 j0))) i j = 0%Z
            <-> astype_uint8 (clip (data 0%nat i j)) = 0%Z
                /\ astype_uint8 (clip (data 1%nat i j)) = 0%Z
                /\ astype_uint8 (clip (data 2%nat i j)) = 0%Z).
  { intros i j. unfold mask.
    destruct (astype_uint8 (clip (data 0%nat i j)) =? 0)%Z eqn:R;
    destruct (astype_uint8 (clip (data 1%nat i j)) =? 0)%Z eqn:G;
    destruct (astype_uint8 (clip (data 2%nat i j)) =? 0)%Z eqn:B;
    cbn [negb orb]; lia. }
  split; [|split].
  - intros i j. cbn [snd]. rewrite Alpha, !astype_uint8_clip_zero.
    reflexivity.
  - intros i j. cbn [snd]. intros Ha.
    pose proof (proj1 (Alpha i j) Ha) as (-> & -> & ->).
    now rewrite Ha.
  - intros Hall i j. cbn [blank pixel].
    assert (Ha : mask (fun b i0 j0 => astype_uint8 (clip (data b i0 j0)))
                   i j = 0%Z)
      by (apply Alpha; rewrite !astype_uint8_clip_zero; apply Hall).
    pose proof (proj1 (Alpha i j) Ha) as (-> & -> & ->).
    now rewrite Ha.
Qed.


End ServingOutcomes.

(** X12 on a raster that reads (-9999, 0, 1/2) everywhere. *)
Lemma get_tile_transparent_pixels_witness :
  let data : samples :=
    fun b _ _ =>
      match b with 0%nat => (-9999)%Q | 1%nat => 0%Q | _ => (1 # 2)%Q end in
  exists resp,
    get_tile (uniform_read (-9999) 0 (1 # 2))%Q ["data/cogs/a.tif"%string]
      1 2 3 = Ok resp
    /\ (forall i j,
          (pixel (content resp) i j).2 = 0%Z <->
          (data 0%nat i j < 1 /\ data 1%nat i j < 1 /\ data 2%nat i j < 1)%Q)
    /\ (forall i j,
          (pixel (content resp) i j).2 = 0%Z ->
          pixel (content resp) i j = (0, 0, 0, 0)%Z)
    /\ ((forall i j,
           (data 0%nat i j < 1 /\ data 1%nat i j < 1
            /\ data 2%nat i j < 1)%Q) ->
        forall i j, pixel (content resp) i j = pixel blank i j).
Proof.
  cbv zeta.
  apply (get_tile_transparent_pixels (uniform_read (-9999) 0 (1 # 2))%Q
           "data/cogs/a.tif" [] 1 2 3).
  reflexivity.
Defined.

End Api.
